(** * Boot-image import pipeline of the rack controller

    A shallow embedding of
    [provisioningserver/import_images/boot_resources.py]: the Change
    Detector ([meta_contains]), the Target Descriptor generator
    ([tgt_entry], [compose_targets_conf]), the Target Registrar
    ([update_targets_conf]) and the orchestrator ([import_images]),
    together with the properties the specification states about them.

    Python [str] and [bytes] values are both modelled by [string] (a list
    of bytes); a [str] is read as its UTF-8 encoding, so [encode('utf-8')]
    is the identity and comparison of strings is comparison of bytes. *)

From Stdlib Require Import ZArith Lia.
From Stdlib Require Import Strings.String Strings.Ascii.
From stdpp Require Import base option list gmap sets strings sorting.

(** ** Text helpers *)

Definition nl : string := String (ascii_of_nat 10) EmptyString.
Definition dquote : string := String (ascii_of_nat 34) EmptyString.
Definition slash : ascii := ascii_of_nat 47.

(** [s.startswith('/')] *)
Definition starts_with_slash (s : string) : bool :=
  match s with
  | String c _ => bool_decide (c = slash)
  | EmptyString => false
  end.

(** [s.endswith('/')] *)
Fixpoint ends_with_slash (s : string) : bool :=
  match s with
  | EmptyString => false
  | String c EmptyString => bool_decide (c = slash)
  | String _ s' => ends_with_slash s'
  end.

(** ** [os.path] on POSIX *)

(** One step of [posixpath.join]: an absolute component replaces what was
    joined so far; otherwise it is appended, with a separator unless the
    path is empty or already ends with one. *)
Definition join1 (path b : string) : string :=
  if starts_with_slash b then b
  else if bool_decide (path = EmptyString) || ends_with_slash path
       then path +:+ b
       else path +:+ String slash b.

(** [os.path.join(a, *p)] *)
Definition path_join (a : string) (p : list string) : string :=
  foldl join1 a p.
Global Arguments path_join : simpl never.

(** [os.path.isabs] *)
Definition isabs (p : string) : bool := starts_with_slash p.

(** [s.split('/')] *)
Fixpoint split_slash (s : string) : list string :=
  match s with
  | EmptyString => [EmptyString]
  | String c s' =>
      if bool_decide (c = slash) then EmptyString :: split_slash s'
      else match split_slash s' with
           | x :: xs => String c x :: xs
           | [] => [String c EmptyString]
           end
  end.

(** The names a path walks through; empty names (repeated or trailing
    separators) are skipped as the kernel does. *)
Definition components (p : string) : list string :=
  filter (λ x, x ≠ EmptyString) (split_slash p).

(** ** The StorageRoot

    The part of the filesystem the pipeline owns, laid out as the
    specification's data model has it: the [current] link, the snapshot
    directories and the shared cache.  Paths are the strings the code
    builds; [locate] reads a path as the kernel would, following the
    [current] link. *)

Inductive Node :=
  | File (content : string) (mtime : Z)
  | Dir.

Record Snapshot := {
  entries : gmap (list string) Node;  (* what lies below the directory *)
  cache_refs : gset string;           (* cache entries its files link to *)
}.

Record StorageRoot := {
  root : list string;                 (* the names leading to the root *)
  current : option string;            (* text of the [current] link *)
  snapshots : gmap string Snapshot;   (* snapshot directories by name *)
  cache : gset string;                (* entries of the shared cache *)
}.

Fixpoint drop_prefix (pre l : list string) : option (list string) :=
  match pre, l with
  | [], _ => Some l
  | x :: pre', y :: l' =>
      if decide (x = y) then drop_prefix pre' l' else None
  | _ :: _, [] => None
  end.

(** Where a link with text [t], placed in the root, leads. *)
Definition link_dest (st : StorageRoot) (t : string) : list string :=
  if isabs t then components t else root st ++ components t.

(** The snapshot directory the Current Pointer names, if any. *)
Definition active_snapshot (st : StorageRoot) : option string :=
  t ← current st;
  match drop_prefix (root st) (link_dest st t) with
  | Some (snap :: _) => Some snap
  | _ => None
  end.

(** The snapshot a path leads into and the names below it. *)
Definition locate (st : StorageRoot) (p : string)
    : option (string * list string) :=
  match drop_prefix (root st) (components p) with
  | Some (name :: rel) =>
      if decide (name = "current") then
        t ← current st;
        match drop_prefix (root st) (link_dest st t) with
        | Some (snap :: sub) => Some (snap, sub ++ rel)
        | _ => None
        end
      else Some (name, rel)
  | _ => None
  end.

Definition stat (st : StorageRoot) (p : string) : option Node :=
  '(snap, rel) ← locate st p;
  s ← snapshots st !! snap;
  match rel with
  | [] => Some Dir
  | _ => entries s !! rel
  end.

(** [os.path.isfile] *)
Definition isfile (st : StorageRoot) (p : string) : bool :=
  match stat st p with
  | Some (File _ _) => true
  | _ => false
  end.

(** [os.path.exists] *)
Definition path_exists (st : StorageRoot) (p : string) : bool :=
  match stat st p with
  | Some _ => true
  | None => false
  end.

(** The text of a regular file. *)
Definition file_text (st : StorageRoot) (p : string) : option string :=
  match stat st p with
  | Some (File content _) => Some content
  | _ => None
  end.

Definition with_snapshots (st : StorageRoot) (m : gmap string Snapshot)
    : StorageRoot :=
  {| root := root st; current := current st;
     snapshots := m; cache := cache st |}.

Definition set_entry (st : StorageRoot) (snap : string)
    (rel : list string) (n : Node) : StorageRoot :=
  with_snapshots st
    (alter (λ s, {| entries := <[rel := n]> (entries s);
                    cache_refs := cache_refs s |}) snap (snapshots st)).

(** Put a regular file at [p]; [None] when [p] does not lead to a place
    for one (no such snapshot directory, or a directory in the way). *)
Definition put_file (st : StorageRoot) (p content : string) (now : Z)
    : option StorageRoot :=
  '(snap, rel) ← locate st p;
  _ ← snapshots st !! snap;
  match rel, stat st p with
  | [], _ | _, Some Dir => None
  | _, _ => Some (set_entry st snap rel (File content now))
  end.

(** [os.utime(p, None)] on a regular file: only its time changes. *)
Definition touch (st : StorageRoot) (p : string) (now : Z) : StorageRoot :=
  match locate st p, stat st p with
  | Some (snap, rel), Some (File content _) =>
      set_entry st snap rel (File content now)
  | _, _ => st
  end.

(** ** Target descriptor entries *)

(** [tgt_entry]: the template after [dedent], with the three fields
    filled in. *)
Definition tgt_entry (osystem arch subarch release label image : string)
    : string :=
  let prefix := "iqn.2004-05.com.ubuntu:maas" in
  let target_name :=
    "ephemeral-" +:+ osystem +:+ "-" +:+ arch +:+ "-" +:+ subarch
      +:+ "-" +:+ release +:+ "-" +:+ label in
  "<target " +:+ prefix +:+ ":" +:+ target_name +:+ ">" +:+ nl
  +:+ "    readonly 1" +:+ nl
  +:+ "    allow-in-use yes" +:+ nl
  +:+ "    backing-store " +:+ dquote +:+ image +:+ dquote +:+ nl
  +:+ "    driver iscsi" +:+ nl
  +:+ "</target>" +:+ nl.

(** One item of [list_boot_images]: a dict with these keys. *)
Record BootImage := {
  osystem : string;
  architecture : string;
  subarchitecture : string;
  release : string;
  label : string;
  purpose : string;
}.

(** The tuple [(osystem, arch, subarch, release, label)]. *)
Definition Key : Type := string * string * string * string * string.

Definition image_key (item : BootImage) : Key :=
  (osystem item, architecture item, subarchitecture item,
   release item, label item).

(** Order of Python tuples: decided at the first position that differs. *)
Definition lex_le {A B} `{EqDecision A} (RA : relation A) (RB : relation B)
    : relation (A * B) :=
  λ p q, if decide (p.1 = q.1) then RB p.2 q.2 else RA p.1 q.1.

Global Instance lex_le_dec {A B} `{EqDecision A} (RA : relation A)
  (RB : relation B) `{!RelDecision RA, !RelDecision RB} :
  RelDecision (lex_le RA RB).
Proof. intros p q. unfold lex_le. destruct (decide _); apply _. Defined.

Definition key_le : relation Key :=
  lex_le (lex_le (lex_le (lex_le String.le String.le) String.le) String.le)
         String.le.

Global Instance key_le_dec : RelDecision key_le.
Proof. unfold key_le. apply _. Defined.

(** [sorted(entries)] for a set of tuples. *)
Definition sorted (entries : gset Key) : list Key :=
  merge_sort key_le (elements entries).

(** The set the first loop of [compose_targets_conf] builds. *)
Definition collect_entries (items : list BootImage) : gset Key :=
  foldl (λ entries item, entries ∪ {[ image_key item ]}) ∅ items.

(** The body of the second loop, for one tuple: what it appends. *)
Definition entries_of_key (st : StorageRoot) (snapshot_path : string)
    (k : Key) : list string :=
  let '(osystem, arch, subarch, release, label) := k in
  let base_path :=
    path_join snapshot_path [osystem; arch; subarch; release; label] in
  let root_image := path_join base_path ["root-image"] in
  let squashfs_image := path_join base_path ["squashfs"] in
  (if isfile st root_image
   then [tgt_entry osystem arch subarch release label root_image]
   else [])
  ++ (if isfile st squashfs_image
      then [tgt_entry osystem arch subarch release label squashfs_image]
      else []).

(** [tgt_entries] as it stands when the second loop ends. *)
Definition tgt_entries_of (st : StorageRoot) (snapshot_path : string)
    (items : list BootImage) : list string :=
  sorted (collect_entries items) ≫= entries_of_key st snapshot_path.

(** [''.join(l)] *)
Definition str_join (l : list string) : string :=
  foldr String.append "" l.

(** ** Effects: exceptions, the trace and the state *)

(** The exception classes that matter to the handlers of the module.
    The last two derive from [BaseException] only. *)
Inductive exn :=
  | ExternalProcessError (msg : string)
  | OSError (msg : string)
  | OtherException (name msg : string)
  | KeyboardInterrupt
  | SystemExit.

(** [isinstance(e, Exception)] *)
Definition is_Exception (e : exn) : bool :=
  match e with
  | KeyboardInterrupt | SystemExit => false
  | _ => true
  end.

(** ["%s" % e] *)
Definition exn_text (e : exn) : string :=
  match e with
  | ExternalProcessError msg | OSError msg | OtherException _ msg => msg
  | KeyboardInterrupt | SystemExit => ""
  end.

Inductive Result (A : Type) :=
  | Ok (a : A)
  | Raise (e : exn).
Arguments Ok {A} a.
Arguments Raise {A} e.

Inductive EventType := RACK_IMPORT_WARNING | RACK_IMPORT_ERROR | RACK_IMPORT_INFO.
Inductive Level := INFO | WARNING | ERROR.

(** A message is a text, or the pair that [link_bootloaders] passes on. *)
Inductive Msg :=
  | Text (s : string)
  | Pair (fmt arg : string).

(** What a run does to the world outside the StorageRoot, in order,
    and the calls it makes to its collaborators.  [UpdateTargets] marks
    an entry into [update_targets_conf]. *)
Inductive Event :=
  | RackEvent (t : EventType) (m : Msg)
  | Log (l : Level) (m : Msg)
  | FetchDescriptions
  | Download (storage : string)
  | Cleanup (storage : string)
  | WriteFile (path : string)
  | Symlink (source name : string)
  | LinkBootloader (method destination : string)
  | UpdateTargets (snapshot : string)
  | EnsureService (name : string) (timeout : Z)
  | RunCommand (cmd : list string).

Global Instance EventType_eq_dec : EqDecision EventType.
Proof. solve_decision. Defined.
Global Instance Level_eq_dec : EqDecision Level.
Proof. solve_decision. Defined.
Global Instance Msg_eq_dec : EqDecision Msg.
Proof. solve_decision. Defined.
Global Instance Event_eq_dec : EqDecision Event.
Proof. solve_decision. Defined.
Global Instance exn_eq_dec : EqDecision exn.
Proof. solve_decision. Defined.

Record World := {
  store : StorageRoot;
  trace : list Event;
}.

Definition M (A : Type) : Type := World → Result A * World.

Global Instance M_ret : MRet M := λ A a w, (Ok a, w).
Global Instance M_bind : MBind M := λ A B f m w,
  match m w with
  | (Ok a, w') => f a w'
  | (Raise e, w') => (Raise e, w')
  end.

Definition raise {A} (e : exn) : M A := λ w, (Raise e, w).

(** [try: body except <catches>: handler] *)
Definition try_except {A} (body : M A) (catches : exn → bool)
    (handler : exn → M A) : M A := λ w,
  match body w with
  | (Raise e, w') => if catches e then handler e w' else (Raise e, w')
  | r => r
  end.

Definition emit (e : Event) : M unit := λ w,
  (Ok tt, {| store := store w; trace := trace w ++ [e] |}).

Definition get_store : M StorageRoot := λ w, (Ok (store w), w).

Definition set_store (st : StorageRoot) : M unit := λ w,
  (Ok tt, {| store := st; trace := trace w |}).

(** Hand the outcome of a collaborator back to the caller. *)
Definition lift_result {A} (r : Result A) : M A := λ w, (r, w).

(** [for x in l: body(x)] *)
Fixpoint for_each {A} (l : list A) (body : A → M unit) : M unit :=
  match l with
  | [] => mret tt
  | x :: l' => body x ;; for_each l' body
  end.

(** ** The collaborators

    What the module imports from the rest of the tree and from the
    system, as far as a run depends on it. *)

Inductive KeyringData :=
  | KeyringStr (s : string)
  | KeyringBytes (b : string).

(** One source: a dict with a [url] and, maybe, [keyring_data]. *)
Record Source := {
  url : string;
  keyring_data : option KeyringData;
}.

(** What the core uses of the catalog: [is_empty()] and [dump_json()]. *)
Record ImageDescriptions := {
  is_empty : bool;
  dump_json : string;
}.

(** A boot method of the registry: its name and what linking its loader
    into a directory does. *)
Record BootMethod := {
  bm_name : string;
  link_bootloader : string → StorageRoot → Result unit * StorageRoot;
}.

Record Env := {
  (** [FilePath(config.tftp_root).parent().path] *)
  tftp_root_parent : string;
  (** the directory [tempdir('keyrings')] hands out *)
  keyrings_tempdir : string;
  (** the time [os.utime] and the writes stamp files with *)
  clock : Z;
  write_all_keyrings : string → list Source → list Source;
  download_all_image_descriptions : list Source → Result ImageDescriptions;
  ProductMapping : Type;
  map_products : ImageDescriptions → ProductMapping;
  download_all_boot_resources :
    list Source → string → ProductMapping → StorageRoot →
    Result string * StorageRoot;
  list_boot_images : string → StorageRoot → list BootImage;
  BootMethodRegistry : list BootMethod;
  (** [service_monitor.ensureService(name).wait(timeout)] *)
  ensure_service_wait : string → Z → Result unit;
  call_and_check : list string → Result unit;
  get_path : string → string;
  sudo : list string → list string;
  (** a fault of the disk that makes a write to this path fail *)
  write_fault : string → option exn;
}.

(** Modelled from the spec: [cleanup_snapshots_and_cache], of
    [provisioningserver.import_images.cleanup], whose source is missing.
    The Reaper never deletes the Snapshot referenced by the Current
    Pointer, never deletes a Cache entry referenced by any remaining
    Snapshot, and deletes everything else. *)
Definition reap (st : StorageRoot) : StorageRoot :=
  let remaining :=
    filter (λ kv, Some kv.1 = active_snapshot st) (snapshots st) in
  {| root := root st;
     current := current st;
     snapshots := remaining;
     cache := cache st ∩ ⋃ (cache_refs <$> (map_to_list remaining).*2) |}.

(** [s.encode('ascii')] succeeds on bytes below 128 only. *)
Fixpoint is_ascii (s : string) : bool :=
  match s with
  | EmptyString => true
  | String c s' => (nat_of_ascii c <? 128)%nat && is_ascii s'
  end.

Section Pipeline.
Context (env : Env).

Definition try_send_rack_event (t : EventType) (m : Msg) : M unit :=
  emit (RackEvent t m).

Definition maaslog (l : Level) (m : Msg) : M unit := emit (Log l m).

(** Run a collaborator that works on the StorageRoot. *)
Definition on_store {A} (f : StorageRoot → Result A * StorageRoot)
    : M A := λ w,
  let '(r, st') := f (store w) in
  (r, {| store := st'; trace := trace w |}).

(** Modelled from the spec: [atomic_write], of
    [provisioningserver.utils.fs], whose source is missing.  It writes
    then renames, so the file is there whole or the StorageRoot is as it
    was. *)
Definition atomic_write (content filename : string) : M unit :=
  emit (WriteFile filename) ;;
  match write_fault env filename with
  | Some e => raise e
  | None =>
      st ← get_store;
      match put_file st filename content (clock env) with
      | Some st' => set_store st'
      | None => raise (OSError filename)
      end
  end.

(** Modelled from the spec: [atomic_symlink], of
    [provisioningserver.utils.fs], whose source is missing.  It replaces
    the link in one rename.  The only link of the StorageRoot is
    [current]. *)
Definition atomic_symlink (source name : string) : M unit :=
  emit (Symlink source name) ;;
  match write_fault env name with
  | Some e => raise e
  | None =>
      st ← get_store;
      if decide (components name = root st ++ ["current"]) then
        set_store {| root := root st; current := Some source;
                     snapshots := snapshots st; cache := cache st |}
      else raise (OSError name)
  end.

(** [read_text_file] of [provisioningserver.utils.fs]. *)
Definition read_text_file (filename : string) : M string :=
  st ← get_store;
  match file_text st filename with
  | Some text => mret text
  | None => raise (OSError filename)
  end.

Definition os_path_isfile (p : string) : M bool :=
  st ← get_store; mret (isfile st p).

Definition os_path_exists (p : string) : M bool :=
  st ← get_store; mret (path_exists st p).

Definition os_utime (p : string) : M unit :=
  st ← get_store; set_store (touch st p (clock env)).

(** The call to the Reaper: [reap] is what it does to the StorageRoot
    it is pointed at. *)
Definition cleanup_snapshots_and_cache (storage : string) : M unit :=
  emit (Cleanup storage) ;;
  st ← get_store;
  if decide (components storage = root st) then set_store (reap st)
  else mret tt.

(** [compose_targets_conf] *)
Definition compose_targets_conf (snapshot_path : string) : M string :=
  st ← get_store;
  let tgt_entries :=
    tgt_entries_of st snapshot_path
      (list_boot_images env snapshot_path st) in
  let text := str_join tgt_entries in
  mret text.

(** [meta_contains] *)
Definition meta_contains (storage content : string) : M bool :=
  let current_meta := path_join storage ["current"; "maas.meta"] in
  exists_ ← os_path_isfile current_meta;
  (if (exists_ : bool) then os_utime current_meta else mret tt) ;;
  if (exists_ : bool) then
    text ← read_text_file current_meta;
    mret (bool_decide (content = text))
  else mret false.

(** [update_current_symlink] *)
Definition update_current_symlink (storage latest_snapshot : string)
    : M unit :=
  atomic_symlink latest_snapshot (path_join storage ["current"]).

(** [write_snapshot_metadata] *)
Definition write_snapshot_metadata (snapshot meta_file_content : string)
    : M unit :=
  let meta_file := path_join snapshot ["maas.meta"] in
  if is_ascii meta_file_content
  then atomic_write meta_file_content meta_file
  else raise (OtherException "UnicodeEncodeError" meta_file_content).

(** [write_targets_conf] *)
Definition write_targets_conf (snapshot : string) : M unit :=
  let targets_conf := path_join snapshot ["maas.tgt"] in
  targets_conf_content ← compose_targets_conf snapshot;
  atomic_write targets_conf_content targets_conf.

Definition is_ExternalProcessError (e : exn) : bool :=
  match e with
  | ExternalProcessError _ => true
  | _ => false
  end.

(** [update_targets_conf] *)
Definition update_targets_conf (snapshot : string) : M unit :=
  emit (UpdateTargets snapshot) ;;
  emit (EnsureService "tgt" 30) ;;
  lift_result (ensure_service_wait env "tgt" 30) ;;
  let targets_conf := path_join snapshot ["maas.tgt"] in
  present ← os_path_exists targets_conf;
  if negb present then mret tt
  else
    try_except
      (let cmd := sudo env [get_path env "/usr/sbin/tgt-admin";
                            "--conf"; targets_conf;
                            "--update"; "ALL"] in
       emit (RunCommand cmd) ;;
       lift_result (call_and_check env cmd))
      is_ExternalProcessError
      (λ e,
         let msg := Text ("Unable to update TGT config: " +:+ exn_text e) in
         try_send_rack_event RACK_IMPORT_WARNING msg ;;
         maaslog WARNING msg).

(** [update_iscsi_targets] *)
Definition update_iscsi_targets (snapshot_path : string) : M unit :=
  maaslog INFO (Text "Updating boot image iSCSI targets.") ;;
  update_targets_conf snapshot_path.

(** The body of the loop of [link_bootloaders], for one boot method. *)
Definition link_one (destination : string) (boot_method : BootMethod)
    : M unit :=
  try_except
    (emit (LinkBootloader (bm_name boot_method) destination) ;;
     on_store (link_bootloader boot_method destination))
    (λ _ : exn, true)
    (λ _ : exn,
       let msg := Pair "Unable to link the %s bootloader."
                       (bm_name boot_method) in
       try_send_rack_event RACK_IMPORT_ERROR msg ;;
       maaslog ERROR msg).

(** [link_bootloaders] *)
Definition link_bootloaders (destination : string) : M unit :=
  for_each (BootMethodRegistry env) (link_one destination).

(** The band-aid of [import_images]: keyring data that is a [str] is
    encoded. *)
Definition encode_keyring_data (source : Source) : Source :=
  match keyring_data source with
  | Some (KeyringStr s) =>
      {| url := url source; keyring_data := Some (KeyringBytes s) |}
  | _ => source
  end.

(** The call to the Resource Downloader. *)
Definition download_boot_resources (sources : list Source)
    (storage : string) (product_mapping : ProductMapping env) : M string :=
  emit (Download storage) ;;
  on_store (download_all_boot_resources env sources storage product_mapping).

(** [import_images].  The two [with] blocks (the cluster configuration,
    the temporary directory of the keyrings) lie outside the StorageRoot
    and leave nothing behind. *)
Definition import_images (sources : list Source) : M bool :=
  if decide (length sources = 0) then
    let msg := Text "Can't import: region did not provide a source." in
    try_send_rack_event RACK_IMPORT_WARNING msg ;;
    maaslog WARNING msg ;;
    mret false
  else
    let msg := Text "Starting rack boot image import" in
    maaslog INFO msg ;;
    try_send_rack_event RACK_IMPORT_INFO msg ;;
    let storage := tftp_root_parent env in
    let keyrings_path := keyrings_tempdir env in
    let sources := encode_keyring_data <$> sources in
    let sources := write_all_keyrings env keyrings_path sources in
    emit FetchDescriptions ;;
    image_descriptions ←
      lift_result (download_all_image_descriptions env sources);
    if is_empty image_descriptions then
      update_iscsi_targets (path_join storage ["current"]) ;;
      let msg := Text ("Finished importing boot images, the region does "
                       +:+ "not have any boot images available.") in
      try_send_rack_event RACK_IMPORT_WARNING msg ;;
      maaslog WARNING msg ;;
      mret false
    else
      let meta_file_content := dump_json image_descriptions in
      unchanged ← meta_contains storage meta_file_content;
      if (unchanged : bool) then
        update_iscsi_targets (path_join storage ["current"]) ;;
        maaslog INFO (Text ("Finished importing boot images, the region "
                            +:+ "does not have any new images.")) ;;
        try_send_rack_event RACK_IMPORT_INFO msg ;;
        maaslog INFO msg ;;
        mret false
      else
        let product_mapping := map_products env image_descriptions in
        snapshot_path ←
          try_except
            (download_boot_resources sources storage product_mapping)
            is_Exception
            (λ e,
               try_send_rack_event RACK_IMPORT_ERROR
                 (Text ("Unable to import boot images: " +:+ exn_text e)) ;;
               update_iscsi_targets (path_join storage ["current"]) ;;
               maaslog ERROR
                 (Text ("Unable to import boot images; cleaning up failed "
                        +:+ "snapshot and cache.")) ;;
               cleanup_snapshots_and_cache storage ;;
               raise e);
        maaslog INFO (Text "Writing boot image metadata and iSCSI targets.") ;;
        write_snapshot_metadata snapshot_path meta_file_content ;;
        write_targets_conf snapshot_path ;;
        maaslog INFO
          (Text ("Linking boot images snapshot " +:+ snapshot_path)) ;;
        link_bootloaders snapshot_path ;;
        update_current_symlink storage snapshot_path ;;
        update_iscsi_targets snapshot_path ;;
        maaslog INFO (Text "Cleaning up old snapshots and cache.") ;;
        cleanup_snapshots_and_cache storage ;;
        let msg := Text "Finished importing boot images." in
        maaslog INFO msg ;;
        try_send_rack_event RACK_IMPORT_INFO msg ;;
        mret true.

End Pipeline.

Global Arguments atomic_write : simpl never.
Global Arguments atomic_symlink : simpl never.
Global Arguments cleanup_snapshots_and_cache : simpl never.
Global Arguments compose_targets_conf : simpl never.
Global Arguments meta_contains : simpl never.
Global Arguments update_current_symlink : simpl never.
Global Arguments write_snapshot_metadata : simpl never.
Global Arguments write_targets_conf : simpl never.
Global Arguments update_targets_conf : simpl never.
Global Arguments update_iscsi_targets : simpl never.
Global Arguments link_one : simpl never.
Global Arguments link_bootloaders : simpl never.
Global Arguments download_boot_resources : simpl never.
Global Arguments import_images : simpl never.

(** What a trace says about the Registrar and about the StorageRoot. *)

(** The snapshot paths the Registrar was invoked against, in order. *)
Definition registrar_calls (evs : list Event) : list string :=
  omap (λ e, match e with UpdateTargets p => Some p | _ => None end) evs.

(** A call to the Downloader, the Committer (a write, the repointing,
    the linking of a loader) or the Reaper. *)
Definition is_storage_action (e : Event) : bool :=
  match e with
  | Download _ | Cleanup _ | WriteFile _ | Symlink _ _ | LinkBootloader _ _ =>
      true
  | _ => false
  end.

Definition storage_actions (evs : list Event) : list Event :=
  List.filter is_storage_action evs.

(** The number of backing files of the two recognized kinds below the
    directory of a tuple. *)
Definition backing_files (st : StorageRoot) (snapshot_path : string)
    (k : Key) : nat :=
  let '(osystem, arch, subarch, release, label) := k in
  let base := [osystem; arch; subarch; release; label] in
  (if isfile st (path_join snapshot_path (base ++ ["root-image"]))
   then 1 else 0)
  + (if isfile st (path_join snapshot_path (base ++ ["squashfs"]))
     then 1 else 0).

(** ** A concrete deployment, for the examples *)

Module Scenario.

Definition storage : string := "/srv/boot".

Definition xenial : BootImage :=
  {| osystem := "ubuntu"; architecture := "amd64";
     subarchitecture := "generic"; release := "xenial";
     label := "release"; purpose := "xinstall" |}.

Definition centos : BootImage :=
  {| osystem := "centos"; architecture := "amd64";
     subarchitecture := "generic"; release := "centos70";
     label := "release"; purpose := "xinstall" |}.

Definition xenial_dir : list string :=
  ["ubuntu"; "amd64"; "generic"; "xenial"; "release"].

Definition centos_dir : list string :=
  ["centos"; "amd64"; "generic"; "centos70"; "release"].

(** A complete snapshot: both control files and one root image. *)
Definition snapshot_1 : Snapshot :=
  {| entries :=
       <[ ["maas.meta"] := File "{A}" 100 ]>
       (<[ ["maas.tgt"] := File "targets" 100 ]>
       (<[ xenial_dir ++ ["root-image"] := File "image" 100 ]> ∅));
     cache_refs := {[ "root-image-1" ]} |}.

(** A snapshot whose only image has no backing file for a target. *)
Definition snapshot_centos : Snapshot :=
  {| entries := <[ centos_dir ++ ["root-tgz"] := File "tarball" 100 ]> ∅;
     cache_refs := {[ "root-tgz-1" ]} |}.

(** A directory a download left half-filled. *)
Definition snapshot_partial : Snapshot :=
  {| entries := <[ xenial_dir ++ ["boot-kernel"] := File "kernel" 150 ]> ∅;
     cache_refs := {[ "boot-kernel-2" ]} |}.

(** A snapshot directory without a Target Descriptor. *)
Definition snapshot_bare : Snapshot :=
  {| entries := <[ ["maas.meta"] := File "{A}" 100 ]> ∅;
     cache_refs := ∅ |}.

Definition settled : StorageRoot :=
  {| root := ["srv"; "boot"];
     current := Some "/srv/boot/snapshot-1";
     snapshots := {[ "snapshot-1" := snapshot_1 ]};
     cache := {[ "root-image-1" ]} |}.


Definition cold : StorageRoot :=
  {| root := ["srv"; "boot"]; current := None;
     snapshots := ∅; cache := ∅ |}.

Definition add_snapshot (name : string) (s : Snapshot) (st : StorageRoot)
    : StorageRoot :=
  {| root := root st; current := current st;
     snapshots := <[ name := s ]> (snapshots st);
     cache := cache st ∪ cache_refs s |}.

(** A download that stages [snapshot-2] and succeeds. *)
Definition download_ok (_ : list Source) (_ : string) (_ : unit)
    (st : StorageRoot) : Result string * StorageRoot :=
  (Ok "/srv/boot/snapshot-2", add_snapshot "snapshot-2" snapshot_partial st).

(** A download that fails half-way through staging [snapshot-2]. *)
Definition download_fails (_ : list Source) (_ : string) (_ : unit)
    (st : StorageRoot) : Result string * StorageRoot :=
  (Raise (OSError "connection reset"),
   add_snapshot "snapshot-2" snapshot_partial st).

Definition no_fault (_ : string) : option exn := None.

(** The disk refuses to write the Metadata Record of [snapshot-2]. *)
Definition meta_fault (p : string) : option exn :=
  if decide (p = "/srv/boot/snapshot-2/maas.meta")
  then Some (OSError "No space left on device") else None.

(** The disk refuses to write the Target Descriptor of [snapshot-2]. *)
Definition tgt_fault (p : string) : option exn :=
  if decide (p = "/srv/boot/snapshot-2/maas.tgt")
  then Some (OSError "No space left on device") else None.

Definition make_env (catalog : string)
    (download : list Source → string → unit → StorageRoot →
                Result string * StorageRoot)
    (images : list BootImage) (reload : Result unit)
    (fault : string → option exn) : Env :=
  {| tftp_root_parent := storage;
     keyrings_tempdir := "/tmp/keyrings";
     clock := 200;
     write_all_keyrings := λ _ sources, sources;
     download_all_image_descriptions := λ _,
       Ok {| is_empty := false; dump_json := catalog |};
     ProductMapping := unit;
     map_products := λ _, tt;
     download_all_boot_resources := download;
     list_boot_images := λ _ _, images;
     BootMethodRegistry := [];
     ensure_service_wait := λ _ _, Ok tt;
     call_and_check := λ _, reload;
     get_path := λ p, p;
     sudo := λ cmd, "sudo" :: "-n" :: cmd;
     write_fault := fault |}.

(** A boot method whose loader cannot be linked. *)
Definition broken_loader : BootMethod :=
  {| bm_name := "pxe";
     link_bootloader := λ _ st, (Raise (OSError "pxelinux.0 not found"), st) |}.

(** The same deployment with the given boot methods registered. *)
Definition with_loaders (env : Env) (loaders : list BootMethod) : Env :=
  {| tftp_root_parent := tftp_root_parent env;
     keyrings_tempdir := keyrings_tempdir env;
     clock := clock env;
     write_all_keyrings := write_all_keyrings env;
     download_all_image_descriptions := download_all_image_descriptions env;
     ProductMapping := ProductMapping env;
     map_products := map_products env;
     download_all_boot_resources := download_all_boot_resources env;
     list_boot_images := list_boot_images env;
     BootMethodRegistry := loaders;
     ensure_service_wait := ensure_service_wait env;
     call_and_check := call_and_check env;
     get_path := get_path env;
     sudo := sudo env;
     write_fault := write_fault env |}.

(** The catalog has changed to [{B}]; what happens next differs. *)
Definition env_download_fails : Env :=
  make_env "{B}" download_fails [xenial] (Ok tt) no_fault.
Definition env_meta_fault : Env :=
  make_env "{B}" download_ok [xenial] (Ok tt) meta_fault.
Definition env_tgt_fault : Env :=
  make_env "{B}" download_ok [xenial] (Ok tt) tgt_fault.
Definition env_broken_loader : Env :=
  with_loaders (make_env "{B}" download_ok [xenial] (Ok tt) no_fault)
    [broken_loader].

Definition catalog_B : ImageDescriptions :=
  {| is_empty := false; dump_json := "{B}" |}.

Definition one_source : list Source :=
  [ {| url := "http://region:5240/images-stream/";
       keyring_data := None |} ].

Definition world (st : StorageRoot) : World :=
  {| store := st; trace := [] |}.

End Scenario.

(** ** Running a step from a given StorageRoot

    Every step only appends to the trace, and what it does depends on
    the StorageRoot alone; so a step can be described by what it does
    from an empty trace. *)

Definition fresh (st : StorageRoot) : World := {| store := st; trace := [] |}.

Definition outcome {A} (m : M A) (st : StorageRoot) : Result A :=
  (m (fresh st)).1.

Definition events {A} (m : M A) (st : StorageRoot) : list Event :=
  trace (m (fresh st)).2.

Definition store_after {A} (m : M A) (st : StorageRoot) : StorageRoot :=
  store (m (fresh st)).2.

Definition parametric {A} (m : M A) : Prop :=
  ∀ w, m w = (outcome m (store w),
              {| store := store_after m (store w);
                 trace := trace w ++ events m (store w) |}).

(** ** Names the statements use *)

(** The path of the Metadata Record of the active Snapshot. *)
Definition current_meta (storage : string) : string :=
  path_join storage ["current"; "maas.meta"].

(** The Metadata Record a snapshot directory stores. *)
Definition record_of (s : Snapshot) : option string :=
  match entries s !! ["maas.meta"] with
  | Some (File content _) => Some content
  | _ => None
  end.

(** The command line of the reload. *)
Definition reload_command (env : Env) (snapshot : string) : list string :=
  sudo env [get_path env "/usr/sbin/tgt-admin";
            "--conf"; path_join snapshot ["maas.tgt"];
            "--update"; "ALL"].

(** The sources as [import_images] hands them to the Catalog Fetcher. *)
Definition prepared_sources (env : Env) (sources : list Source)
    : list Source :=
  write_all_keyrings env (keyrings_tempdir env)
    (encode_keyring_data <$> sources).

(** What linking the loaders leaves in the trace: a [LinkBootloader] per
    boot method and, for one that failed, an error event and an error
    line. *)
Definition is_loader_event (e : Event) : bool :=
  match e with
  | LinkBootloader _ _ | RackEvent RACK_IMPORT_ERROR (Pair _ _)
  | Log ERROR (Pair _ _) => true
  | _ => false
  end.

(** ** The contract of the Downloader *)



(** ** The command line *)

(** What [BootSources.load] does with a file name: the sources it reads,
    or the exception it raises, with the [errno] the exception carries
    when it is an [IOError]. *)
Inductive LoadOutcome :=
  | Loaded (sources : list Source)
  | LoadRaises (e : exn) (errno : option Z).

(** [errno.ENOENT] *)
Definition ENOENT : Z := 2.

(** [NoConfigFile(ex)] *)
Definition NoConfigFile (msg : string) : exn :=
  OtherException "NoConfigFile" msg.

(** [read_sources]; [IOError] is the class of [OSError]. *)
Definition read_sources (load : string → LoadOutcome) (sources_yaml : string)
    : M (list Source) :=
  match load sources_yaml with
  | Loaded sources => mret sources
  | LoadRaises (OSError msg) errno =>
      if decide (errno = Some ENOENT)
      then raise (NoConfigFile msg)
      else raise (OSError msg)
  | LoadRaises e _ => raise e
  end.

(** [main]: [args.sources_file] is its argument; it returns [None]. *)
Definition main (env : Env) (load : string → LoadOutcome)
    (sources_file : string) : M unit :=
  sources ← read_sources load sources_file;
  import_images env sources ;;
  mret tt.

(** The boot methods a trace shows an attempt to link, in order. *)
Definition loader_attempts (evs : list Event) : list string :=
  omap (λ e, match e with LinkBootloader name _ => Some name | _ => None end)
       evs.

(** The boot methods a trace reports as failed, in order. *)
Definition loader_failures (evs : list Event) : list string :=
  omap (λ e, match e with
             | RackEvent RACK_IMPORT_ERROR (Pair _ name) => Some name
             | _ => None
             end) evs.

(** What a loader leaves alone: where the StorageRoot lies and the text
    of the file at [p]. *)
Definition keeps_record (p : string) (st st' : StorageRoot) : Prop :=
  root st' = root st ∧ file_text st' p = file_text st p.

(** ** More deployments, for the examples *)

Module Faults.

(** A deployment with another answer of the Catalog Fetcher. *)
Definition with_catalog (env : Env) (answer : Result ImageDescriptions)
    : Env :=
  {| tftp_root_parent := tftp_root_parent env;
     keyrings_tempdir := keyrings_tempdir env;
     clock := clock env;
     write_all_keyrings := write_all_keyrings env;
     download_all_image_descriptions := λ _, answer;
     ProductMapping := ProductMapping env;
     map_products := map_products env;
     download_all_boot_resources := download_all_boot_resources env;
     list_boot_images := list_boot_images env;
     BootMethodRegistry := BootMethodRegistry env;
     ensure_service_wait := ensure_service_wait env;
     call_and_check := call_and_check env;
     get_path := get_path env;
     sudo := sudo env;
     write_fault := write_fault env |}.

(** A deployment with another outcome of the wait for a service. *)
Definition with_service (env : Env) (wait : Result unit) : Env :=
  {| tftp_root_parent := tftp_root_parent env;
     keyrings_tempdir := keyrings_tempdir env;
     clock := clock env;
     write_all_keyrings := write_all_keyrings env;
     download_all_image_descriptions := download_all_image_descriptions env;
     ProductMapping := ProductMapping env;
     map_products := map_products env;
     download_all_boot_resources := download_all_boot_resources env;
     list_boot_images := list_boot_images env;
     BootMethodRegistry := BootMethodRegistry env;
     ensure_service_wait := λ _ _, wait;
     call_and_check := call_and_check env;
     get_path := get_path env;
     sudo := sudo env;
     write_fault := write_fault env |}.

(** The tgt service does not come up. *)
Definition tgt_down : exn :=
  OtherException "ServiceActionError" "tgt failed to start".

Definition env_tgt_down : Env :=
  with_service
    (Scenario.make_env "{A}" Scenario.download_ok [Scenario.xenial] (Ok tt)
       Scenario.no_fault)
    (Raise tgt_down).

(** The download fails and the tgt service does not come up. *)
Definition env_report_fails : Env :=
  with_service Scenario.env_download_fails (Raise tgt_down).

(** The reload command cannot be started. *)
Definition env_reload_crash : Env :=
  Scenario.make_env "{B}" Scenario.download_ok [Scenario.xenial]
    (Raise (OSError "sudo: command not found")) Scenario.no_fault.

(** The disk refuses to replace the [current] link. *)
Definition link_fault (p : string) : option exn :=
  if decide (p = "/srv/boot/current")
  then Some (OSError "Read-only file system") else None.

Definition env_link_fault : Env :=
  Scenario.make_env "{B}" Scenario.download_ok [Scenario.xenial] (Ok tt)
    link_fault.

(** The region cannot be reached. *)
Definition env_no_region : Env :=
  with_catalog Scenario.env_download_fails
    (Raise (OSError "connection refused")).

(** The region has no image. *)
Definition env_empty_catalog : Env :=
  with_catalog Scenario.env_download_fails
    (Ok {| is_empty := true; dump_json := "{}" |}).

(** A download interrupted half-way through staging [snapshot-2]. *)
Definition download_interrupted (_ : list Source) (_ : string) (_ : unit)
    (st : StorageRoot) : Result string * StorageRoot :=
  (Raise KeyboardInterrupt,
   Scenario.add_snapshot "snapshot-2" Scenario.snapshot_partial st).

Definition env_interrupted : Env :=
  Scenario.make_env "{B}" download_interrupted [Scenario.xenial] (Ok tt)
    Scenario.no_fault.

(** A boot method whose loader is linked without trouble. *)
Definition working_loader : BootMethod :=
  {| bm_name := "uefi"; link_bootloader := λ _ st, (Ok tt, st) |}.

(** The catalog has changed to [{B}] and everything works, but for one
    of the two loaders. *)
Definition env_two_loaders : Env :=
  Scenario.with_loaders
    (Scenario.make_env "{B}" Scenario.download_ok [Scenario.xenial] (Ok tt)
       Scenario.no_fault)
    [working_loader; Scenario.broken_loader].

(** A catalog with a letter outside ASCII. *)
Definition not_ascii : string :=
  "{" +:+ String (ascii_of_nat 233) "}".

End Faults.

(** * Properties *)

(** ** Paths *)

Lemma append_cons c (a b : string) : String c a +:+ b = String c (a +:+ b).
Proof. reflexivity. Qed.

Lemma append_empty (b : string) : EmptyString +:+ b = b.
Proof. reflexivity. Qed.

Lemma split_slash_nonempty s : split_slash s ≠ [].
Proof.
  destruct s as [|c s]; simpl; [done|].
  case_bool_decide; [done|]. by destruct (split_slash s).
Qed.

Lemma split_slash_app_slash a b :
  split_slash (a +:+ String slash b) = split_slash a ++ split_slash b.
Proof.
  induction a as [|c a IH]; [done|].
  rewrite append_cons. simpl. case_bool_decide; [by rewrite IH|].
  rewrite IH. pose proof (split_slash_nonempty a).
  by destruct (split_slash a).
Qed.

Lemma components_app_slash a b :
  components (a +:+ String slash b) = components a ++ components b.
Proof. unfold components. by rewrite split_slash_app_slash, filter_app. Qed.

Lemma ends_with_slash_inv a :
  ends_with_slash a = true → ∃ a', a = a' +:+ String slash EmptyString.
Proof.
  induction a as [|c a IH]; simpl; [done|].
  destruct a as [|c' a].
  - intros ->%bool_decide_eq_true. by exists EmptyString.
  - intros [a' Ha]%IH. exists (String c a'). by rewrite Ha.
Qed.

Lemma string_app_assoc (a b c : string) :
  (a +:+ b) +:+ c = a +:+ (b +:+ c).
Proof. induction a as [|x a IH]; [done|]. by rewrite !append_cons, IH. Qed.

Lemma components_empty : components EmptyString = [].
Proof. done. Qed.

(** Joining a relative component appends its names. *)
Lemma components_join1 a b :
  starts_with_slash b = false →
  components (join1 a b) = components a ++ components b.
Proof.
  intros Hb. unfold join1. rewrite Hb.
  case_bool_decide as Ha; simpl.
  - subst a. done.
  - destruct (ends_with_slash a) eqn:He.
    + destruct (ends_with_slash_inv _ He) as [a' ->].
      rewrite string_app_assoc, append_cons, append_empty.
      rewrite !components_app_slash, components_empty. by rewrite app_nil_r.
    + apply components_app_slash.
Qed.

(** An absolute path stays absolute whatever is joined to it. *)
Lemma isabs_join1 a b : isabs a = true → isabs (join1 a b) = true.
Proof.
  unfold isabs, join1. intros Ha.
  destruct (starts_with_slash b) eqn:Hb; [done|].
  destruct a as [|c a]; [done|].
  destruct (_ || _); by rewrite append_cons.
Qed.

Lemma isabs_path_join a p : isabs a = true → isabs (path_join a p) = true.
Proof.
  revert a. induction p as [|b p IH]; intros a Ha; simpl; [done|].
  apply IH. by apply isabs_join1.
Qed.

Lemma drop_prefix_app pre l : drop_prefix pre (pre ++ l) = Some l.
Proof.
  induction pre as [|x pre IH]; simpl; [done|].
  by rewrite decide_True.
Qed.

Global Instance lex_le_po {A B} `{EqDecision A} (RA : relation A)
  (RB : relation B) `{!PartialOrder RA, !PartialOrder RB} :
  PartialOrder (lex_le RA RB).
Proof.
  split; [split|].
  - intros [a b]. unfold lex_le; simpl. by rewrite decide_True.
  - intros [a1 b1] [a2 b2] [a3 b3]. unfold lex_le; simpl.
    repeat case_decide; simplify_eq; try done; intros Hx Hy;
      try (by etrans);
      exfalso;
      match goal with
      | H : _ ≠ _ |- _ => apply H; by apply (anti_symm RA)
      end.
  - intros [a1 b1] [a2 b2]. unfold lex_le; simpl.
    repeat case_decide; simplify_eq; try done; intros Hx Hy.
    + f_equal. by apply (anti_symm RB).
    + exfalso.
      match goal with
      | H : _ ≠ _ |- _ => apply H; by apply (anti_symm RA)
      end.
Qed.

Global Instance lex_le_total {A B} `{EqDecision A} (RA : relation A)
  (RB : relation B) `{!Total RA, !Total RB} : Total (lex_le RA RB).
Proof.
  intros [a1 b1] [a2 b2]. unfold lex_le; simpl.
  repeat case_decide; subst; try done; apply total; apply _.
Qed.

Global Instance key_le_po : PartialOrder key_le.
Proof. unfold key_le. apply _. Qed.

Global Instance key_le_total : Total key_le.
Proof. unfold key_le. apply _. Qed.

(** ** The Target Descriptor *)

Lemma collect_entries_from (acc : gset Key) (items : list BootImage) k :
  k ∈ foldl (λ entries item, entries ∪ {[ image_key item ]}) acc items
  ↔ k ∈ acc ∨ k ∈ image_key <$> items.
Proof.
  revert acc. induction items as [|item items IH]; intros acc; simpl.
  - rewrite elem_of_nil. tauto.
  - rewrite IH, elem_of_union, elem_of_singleton, elem_of_cons. tauto.
Qed.

Lemma elem_of_collect_entries items k :
  k ∈ collect_entries items ↔ k ∈ image_key <$> items.
Proof.
  unfold collect_entries. rewrite collect_entries_from.
  rewrite elem_of_empty. tauto.
Qed.

Lemma sorted_Permutation (entries : gset Key) :
  sorted entries ≡ₚ elements entries.
Proof. apply merge_sort_Permutation. Qed.

Lemma elem_of_sorted (entries : gset Key) k :
  k ∈ sorted entries ↔ k ∈ entries.
Proof. by rewrite sorted_Permutation, elem_of_elements. Qed.

Lemma sorted_NoDup (entries : gset Key) : NoDup (sorted entries).
Proof. rewrite sorted_Permutation. apply NoDup_elements. Qed.

Lemma sorted_ascending (entries : gset Key) :
  StronglySorted key_le (sorted entries).
Proof. apply StronglySorted_merge_sort; apply _. Qed.

(** Two listings that name the same tuples give the same set, whatever
    their order and however often a tuple is listed. *)
Lemma collect_entries_ext items1 items2 :
  (∀ k, k ∈ image_key <$> items1 ↔ k ∈ image_key <$> items2) →
  collect_entries items1 = collect_entries items2.
Proof.
  intros H. apply set_eq. intros k.
  by rewrite !elem_of_collect_entries.
Qed.

Lemma path_join_app a p q : path_join (path_join a p) q = path_join a (p ++ q).
Proof. unfold path_join. by rewrite foldl_app. Qed.

Lemma entries_of_key_unfold st sp o a s r l :
  entries_of_key st sp (o, a, s, r, l) =
  (if isfile st (path_join sp [o; a; s; r; l; "root-image"])
   then [tgt_entry o a s r l (path_join sp [o; a; s; r; l; "root-image"])]
   else [])
  ++ (if isfile st (path_join sp [o; a; s; r; l; "squashfs"])
      then [tgt_entry o a s r l (path_join sp [o; a; s; r; l; "squashfs"])]
      else []).
Proof. reflexivity. Qed.

Lemma length_entries_of_key st sp k :
  length (entries_of_key st sp k) = backing_files st sp k.
Proof.
  destruct k as [[[[o a] s] r] l].
  rewrite entries_of_key_unfold, length_app. unfold backing_files.
  change ([o; a; s; r; l] ++ ["root-image"]) with [o; a; s; r; l; "root-image"].
  change ([o; a; s; r; l] ++ ["squashfs"]) with [o; a; s; r; l; "squashfs"].
  by do 2 destruct (isfile _ _).
Qed.

Lemma elem_of_entries_of_key st sp o a s r l e :
  e ∈ entries_of_key st sp (o, a, s, r, l) ↔
  ∃ kind, kind ∈ ["root-image"; "squashfs"] ∧
    isfile st (path_join sp [o; a; s; r; l; kind]) = true ∧
    e = tgt_entry o a s r l (path_join sp [o; a; s; r; l; kind]).
Proof.
  rewrite entries_of_key_unfold, elem_of_app. split.
  - intros [H|H].
    + destruct (isfile st (path_join sp [o; a; s; r; l; "root-image"])) eqn:Hf;
        [|by apply elem_of_nil in H].
      apply list_elem_of_singleton in H. exists "root-image".
      split; [by left|done].
    + destruct (isfile st (path_join sp [o; a; s; r; l; "squashfs"])) eqn:Hf;
        [|by apply elem_of_nil in H].
      apply list_elem_of_singleton in H. exists "squashfs".
      split; [by right; left|done].
  - intros (kind & Hk & Hf & ->).
    apply elem_of_cons in Hk as [->|Hk].
    + left. rewrite Hf. by apply list_elem_of_singleton.
    + apply list_elem_of_singleton in Hk as ->.
      right. rewrite Hf. by apply list_elem_of_singleton.
Qed.

Lemma length_bind_sum {A B} (f : A → list B) (g : A → nat) (l : list A) :
  (∀ x, length (f x) = g x) →
  length (l ≫= f) = sum_list_with g l.
Proof.
  intros Hfg. induction l as [|x l IH]; [done|].
  change ((x :: l) ≫= f) with (f x ++ (l ≫= f)).
  rewrite length_app, IH, Hfg. done.
Qed.

(** The text of an entry: the target line, then the two flags, the
    backing file and the driver. *)
Lemma tgt_entry_shape osystem arch subarch release label image :
  tgt_entry osystem arch subarch release label image =
  ("<target iqn.2004-05.com.ubuntu:maas:ephemeral-" +:+ osystem +:+ "-"
     +:+ arch +:+ "-" +:+ subarch +:+ "-" +:+ release +:+ "-" +:+ label
     +:+ ">" +:+ nl)
  +:+ ("    readonly 1" +:+ nl +:+ "    allow-in-use yes" +:+ nl)
  +:+ ("    backing-store " +:+ dquote +:+ image +:+ dquote +:+ nl)
  +:+ ("    driver iscsi" +:+ nl +:+ "</target>" +:+ nl).
Proof.
  unfold tgt_entry. rewrite !string_app_assoc. reflexivity.
Qed.

Lemma compose_targets_conf_run env snapshot_path w :
  compose_targets_conf env snapshot_path w =
  (Ok (str_join (tgt_entries_of (store w) snapshot_path
                   (list_boot_images env snapshot_path (store w)))), w).
Proof. reflexivity. Qed.

Lemma elem_of_tgt_entries_of st sp items e :
  e ∈ tgt_entries_of st sp items ↔
  ∃ o a s r l kind,
    (o, a, s, r, l) ∈ image_key <$> items ∧
    kind ∈ ["root-image"; "squashfs"] ∧
    isfile st (path_join sp [o; a; s; r; l; kind]) = true ∧
    e = tgt_entry o a s r l (path_join sp [o; a; s; r; l; kind]).
Proof.
  unfold tgt_entries_of. rewrite list_elem_of_bind. split.
  - intros ([[[[o a] s] r] l] & He & Hk).
    apply elem_of_sorted, elem_of_collect_entries in Hk.
    apply elem_of_entries_of_key in He as (kind & ? & ? & ?).
    by exists o, a, s, r, l, kind.
  - intros (o & a & s & r & l & kind & Hk & ? & ? & ?).
    exists (o, a, s, r, l). split.
    + apply elem_of_entries_of_key. by exists kind.
    + by apply elem_of_sorted, elem_of_collect_entries.
Qed.

Lemma length_tgt_entries_of st sp items :
  length (tgt_entries_of st sp items) =
  sum_list_with (backing_files st sp) (elements (collect_entries items)).
Proof.
  unfold tgt_entries_of.
  rewrite (length_bind_sum _ (backing_files st sp))
    by apply length_entries_of_key.
  by rewrite sorted_Permutation.
Qed.

(** C5 as the specification words it, one entry per distinct tuple, fails:
    the tuple of a snapshot that holds neither a [root-image] nor a
    [squashfs] for it gets no entry at all. *)
Lemma one_entry_per_tuple_counterexample :
  let st :=
    Scenario.add_snapshot "snapshot-0" Scenario.snapshot_centos
      Scenario.cold in
  let items := [Scenario.centos] in
  size (collect_entries items) = 1
  ∧ tgt_entries_of st "/srv/boot/snapshot-0" items = [].
Proof. vm_compute. done. Qed.

(** C5, amended: the descriptor holds, for each distinct tuple the scan
    lists, one entry for each of the backing files [root-image] and
    [squashfs] that is a regular file below the directory of the tuple,
    and nothing else; every entry carries the flags [readonly 1] and
    [allow-in-use yes] and the path of its backing file, which is the
    snapshot path joined with the tuple and the file name, absolute when
    the snapshot path is. *)
Theorem target_descriptor_entries env snapshot_path w :
  let st := store w in
  let items := list_boot_images env snapshot_path st in
  let tgt_entries := tgt_entries_of st snapshot_path items in
  (compose_targets_conf env snapshot_path w).1 = Ok (str_join tgt_entries)
  ∧ (∀ e, e ∈ tgt_entries ↔
       ∃ o a s r l kind,
         (o, a, s, r, l) ∈ image_key <$> items ∧
         kind ∈ ["root-image"; "squashfs"] ∧
         isfile st (path_join snapshot_path [o; a; s; r; l; kind]) = true ∧
         e = tgt_entry o a s r l (path_join snapshot_path [o; a; s; r; l; kind]))
  ∧ length tgt_entries =
      sum_list_with (backing_files st snapshot_path)
                    (elements (collect_entries items))
  ∧ (∀ o a s r l image,
       tgt_entry o a s r l image =
       ("<target iqn.2004-05.com.ubuntu:maas:ephemeral-" +:+ o +:+ "-"
          +:+ a +:+ "-" +:+ s +:+ "-" +:+ r +:+ "-" +:+ l +:+ ">" +:+ nl)
       +:+ ("    readonly 1" +:+ nl +:+ "    allow-in-use yes" +:+ nl)
       +:+ ("    backing-store " +:+ dquote +:+ image +:+ dquote +:+ nl)
       +:+ ("    driver iscsi" +:+ nl +:+ "</target>" +:+ nl))
  ∧ (isabs snapshot_path = true →
     ∀ names, isabs (path_join snapshot_path names) = true).
Proof.
  intros st items tgt_entries. split_and!.
  - by rewrite compose_targets_conf_run.
  - apply elem_of_tgt_entries_of.
  - apply length_tgt_entries_of.
  - apply tgt_entry_shape.
  - intros Habs names. by apply isabs_path_join.
Qed.

(** An ascending list without repetition is determined by its elements. *)
Lemma ascending_unique (l1 l2 : list Key) :
  StronglySorted key_le l1 → NoDup l1 →
  StronglySorted key_le l2 → NoDup l2 →
  (∀ k, k ∈ l1 ↔ k ∈ l2) → l1 = l2.
Proof.
  intros Hs1 Hn1 Hs2 Hn2 Hel.
  apply (StronglySorted_unique key_le); [done..|].
  by apply NoDup_Permutation.
Qed.

(** C7: the descriptor depends only on the set of tuples the scan lists,
    not on their order or on how often each is listed, and its entries
    come in ascending order of the tuple: the text is the concatenation
    of the entries of the ascending, repetition-free list of the tuples,
    and there is only one such list. *)
Theorem compose_targets_conf_deterministic env1 env2 snapshot_path w1 w2 :
  store w1 = store w2 →
  (∀ k, k ∈ image_key <$> list_boot_images env1 snapshot_path (store w1)
      ↔ k ∈ image_key <$> list_boot_images env2 snapshot_path (store w2)) →
  (compose_targets_conf env1 snapshot_path w1).1
    = (compose_targets_conf env2 snapshot_path w2).1
  ∧ ∃ keys,
      StronglySorted key_le keys ∧ NoDup keys
      ∧ (∀ k, k ∈ keys ↔
           k ∈ image_key <$> list_boot_images env1 snapshot_path (store w1))
      ∧ (compose_targets_conf env1 snapshot_path w1).1
          = Ok (str_join (keys ≫= entries_of_key (store w1) snapshot_path))
      ∧ (∀ keys', StronglySorted key_le keys' → NoDup keys' →
           (∀ k, k ∈ keys' ↔ k ∈ keys) → keys' = keys).
Proof.
  intros Hst Hitems. rewrite !compose_targets_conf_run. simpl. split.
  - unfold tgt_entries_of.
    rewrite (collect_entries_ext _ _ Hitems). by rewrite Hst.
  - exists (sorted (collect_entries
                      (list_boot_images env1 snapshot_path (store w1)))).
    split_and!.
    + apply sorted_ascending.
    + apply sorted_NoDup.
    + intros k. by rewrite elem_of_sorted, elem_of_collect_entries.
    + done.
    + intros keys' Hs Hn Hel.
      apply ascending_unique;
        auto using sorted_ascending, sorted_NoDup.
Qed.

Lemma compose_targets_conf_deterministic_witness :
  let env1 := Scenario.make_env "{A}" Scenario.download_ok
                [Scenario.xenial; Scenario.centos; Scenario.xenial]
                (Ok tt) Scenario.no_fault in
  let env2 := Scenario.make_env "{A}" Scenario.download_ok
                [Scenario.centos; Scenario.xenial]
                (Ok tt) Scenario.no_fault in
  let w := Scenario.world Scenario.settled in
  (compose_targets_conf env1 "/srv/boot/snapshot-1" w).1
    = (compose_targets_conf env2 "/srv/boot/snapshot-1" w).1
  ∧ (compose_targets_conf env1 "/srv/boot/snapshot-1" w).1
    = Ok (tgt_entry "ubuntu" "amd64" "generic" "xenial" "release"
            "/srv/boot/snapshot-1/ubuntu/amd64/generic/xenial/release/root-image").
Proof.
  intros env1 env2 w. split.
  - apply (compose_targets_conf_deterministic env1 env2
             "/srv/boot/snapshot-1" w w); [done|].
    intros k. simpl. rewrite !elem_of_cons, !elem_of_nil. tauto.
  - vm_compute. done.
Defined.

(** ** Steps only append to the trace *)

Lemma world_eta w : {| store := store w; trace := trace w |} = w.
Proof. by destruct w. Qed.

Ltac unfold_run :=
  unfold outcome, events, store_after, fresh, mret, M_ret, raise,
    get_store, set_store, lift_result; simpl.

Lemma parametric_ret {A} (a : A) : parametric (mret a).
Proof. intros [st t]. unfold_run. by rewrite app_nil_r. Qed.

Lemma parametric_raise {A} e : parametric (@raise A e).
Proof. intros [st t]. unfold_run. by rewrite app_nil_r. Qed.

Lemma parametric_emit e : parametric (emit e).
Proof. by intros [st t]. Qed.

Lemma parametric_get_store : parametric get_store.
Proof. intros [st t]. unfold_run. by rewrite app_nil_r. Qed.

Lemma parametric_set_store st' : parametric (set_store st').
Proof. intros [st t]. unfold_run. by rewrite app_nil_r. Qed.

Lemma parametric_lift_result {A} (r : Result A) : parametric (lift_result r).
Proof. intros [st t]. unfold_run. by rewrite app_nil_r. Qed.

Lemma parametric_on_store {A} (f : StorageRoot → Result A * StorageRoot) :
  parametric (on_store f).
Proof.
  intros [st t]. unfold outcome, events, store_after, on_store, fresh; simpl.
  destruct (f st) as [r st']. simpl. by rewrite app_nil_r.
Qed.

Lemma parametric_bind {A B} (m : M A) (f : A → M B) :
  parametric m → (∀ a, parametric (f a)) → parametric (m ≫= f).
Proof.
  intros Hm Hf w.
  unfold outcome, events, store_after, mbind, M_bind.
  rewrite (Hm w), (Hm (fresh (store w))). simpl.
  destruct (outcome m (store w)) as [a|e]; simpl; [|done].
  rewrite (Hf a {| store := _; trace := trace w ++ _ |}).
  rewrite (Hf a {| store := _; trace := events m (store w) |}). simpl.
  by rewrite app_assoc.
Qed.

Lemma parametric_try_except {A} (body : M A) catches handler :
  parametric body → (∀ e, parametric (handler e)) →
  parametric (try_except body catches handler).
Proof.
  intros Hm Hf w.
  unfold outcome, events, store_after, try_except.
  rewrite (Hm w), (Hm (fresh (store w))). simpl.
  destruct (outcome body (store w)) as [a|e]; simpl; [done|].
  destruct (catches e); [|done].
  rewrite (Hf e {| store := _; trace := trace w ++ _ |}).
  rewrite (Hf e {| store := _; trace := events body (store w) |}). simpl.
  by rewrite app_assoc.
Qed.

Lemma parametric_for_each {A} (l : list A) (body : A → M unit) :
  (∀ x, parametric (body x)) → parametric (for_each l body).
Proof.
  intros Hbody. induction l as [|x l IH]; simpl.
  - apply parametric_ret.
  - apply parametric_bind; [apply Hbody|]. intros _. apply IH.
Qed.

Create HintDb parametric.
#[export] Hint Resolve parametric_ret parametric_raise parametric_emit
  parametric_get_store parametric_set_store parametric_lift_result
  parametric_on_store parametric_for_each : parametric.

Ltac solve_parametric :=
  repeat first
    [ apply parametric_bind
    | apply parametric_try_except
    | apply parametric_for_each
    | solve [auto with parametric]
    | match goal with |- ∀ _, parametric _ => intros ? end
    | progress cbv zeta
    | case_match ].

Section Steps.
Context (env : Env).

Lemma parametric_try_send_rack_event t m : parametric (try_send_rack_event t m).
Proof. apply parametric_emit. Qed.

Lemma parametric_maaslog l m : parametric (maaslog l m).
Proof. apply parametric_emit. Qed.

Hint Resolve parametric_try_send_rack_event parametric_maaslog : parametric.

Lemma parametric_atomic_write content filename :
  parametric (atomic_write env content filename).
Proof. unfold atomic_write. solve_parametric. Qed.

Lemma parametric_atomic_symlink source name :
  parametric (atomic_symlink env source name).
Proof. unfold atomic_symlink. solve_parametric. Qed.

Lemma parametric_read_text_file filename :
  parametric (read_text_file filename).
Proof. unfold read_text_file. solve_parametric. Qed.

Lemma parametric_os_path_isfile p : parametric (os_path_isfile p).
Proof. unfold os_path_isfile. solve_parametric. Qed.

Lemma parametric_os_path_exists p : parametric (os_path_exists p).
Proof. unfold os_path_exists. solve_parametric. Qed.

Lemma parametric_os_utime p : parametric (os_utime env p).
Proof. unfold os_utime. solve_parametric. Qed.

Lemma parametric_cleanup storage :
  parametric (cleanup_snapshots_and_cache storage).
Proof. unfold cleanup_snapshots_and_cache. solve_parametric. Qed.

Lemma parametric_compose_targets_conf p :
  parametric (compose_targets_conf env p).
Proof. unfold compose_targets_conf. solve_parametric. Qed.

Hint Resolve parametric_atomic_write parametric_atomic_symlink
  parametric_read_text_file parametric_os_path_isfile
  parametric_os_path_exists parametric_os_utime parametric_cleanup
  parametric_compose_targets_conf : parametric.

Lemma parametric_meta_contains storage content :
  parametric (meta_contains env storage content).
Proof. unfold meta_contains. solve_parametric. Qed.

Lemma parametric_update_current_symlink storage latest :
  parametric (update_current_symlink env storage latest).
Proof. apply parametric_atomic_symlink. Qed.

Lemma parametric_write_snapshot_metadata snapshot content :
  parametric (write_snapshot_metadata env snapshot content).
Proof. unfold write_snapshot_metadata. solve_parametric. Qed.

Lemma parametric_write_targets_conf snapshot :
  parametric (write_targets_conf env snapshot).
Proof. unfold write_targets_conf. solve_parametric. Qed.

Lemma parametric_update_targets_conf snapshot :
  parametric (update_targets_conf env snapshot).
Proof. unfold update_targets_conf. solve_parametric. Qed.

Hint Resolve parametric_meta_contains parametric_update_current_symlink
  parametric_write_snapshot_metadata parametric_write_targets_conf
  parametric_update_targets_conf : parametric.

Lemma parametric_update_iscsi_targets snapshot_path :
  parametric (update_iscsi_targets env snapshot_path).
Proof. unfold update_iscsi_targets. solve_parametric. Qed.

Lemma parametric_link_bootloaders destination :
  parametric (link_bootloaders env destination).
Proof. unfold link_bootloaders. solve_parametric. Qed.

Lemma parametric_download_boot_resources sources storage pm :
  parametric (download_boot_resources env sources storage pm).
Proof. unfold download_boot_resources. solve_parametric. Qed.

Hint Resolve parametric_update_iscsi_targets parametric_link_bootloaders
  parametric_download_boot_resources : parametric.

Lemma parametric_import_images sources :
  parametric (import_images env sources).
Proof. unfold import_images. solve_parametric. Qed.

End Steps.

(** Unfold the plumbing of the monad and the simplest steps. *)
Ltac run_steps :=
  repeat progress
    (unfold mbind, M_bind, mret, M_ret, raise, emit, get_store, set_store,
       lift_result, on_store, os_path_isfile, os_path_exists, os_utime,
       read_text_file, try_send_rack_event, maaslog, try_except; simpl).

(** Bring a trace into the form of a single list. *)
Ltac norm_trace := repeat progress (rewrite <- ?app_assoc; simpl).

(** ** The Change Detector *)

Lemma locate_set_entry st snap rel n p :
  locate (set_entry st snap rel n) p = locate st p.
Proof. reflexivity. Qed.

(** Touching a file changes its time and nothing else: every path leads
    to what it led to, up to the time of a regular file. *)
Lemma stat_touch st p now q :
  stat (touch st p now) q = stat st q
  ∨ ∃ content mtime,
      stat st q = Some (File content mtime)
      ∧ stat (touch st p now) q = Some (File content now).
Proof.
  unfold touch.
  destruct (locate st p) as [[snap rel]|] eqn:Hp; [|by left].
  destruct (stat st p) as [[c m|]|] eqn:Hsp; [|by left..].
  unfold stat in Hsp. rewrite Hp in Hsp. simpl in Hsp.
  destruct (snapshots st !! snap) as [s|] eqn:Hs; [|done]. simpl in Hsp.
  destruct rel as [|x rel]; [done|].
  unfold stat. rewrite locate_set_entry.
  destruct (locate st q) as [[snap' rel']|]; [|by left]. simpl.
  rewrite lookup_alter. destruct (decide (snap = snap')) as [<-|Hne];
    [|by left].
  rewrite Hs. simpl. destruct rel' as [|y rel']; [by left|].
  destruct (decide (x :: rel = y :: rel')) as [<-|Hne].
  - right. exists c, m. by rewrite lookup_insert_eq.
  - left. by rewrite lookup_insert_ne.
Qed.

Lemma file_text_touch st p now q :
  file_text (touch st p now) q = file_text st q.
Proof.
  unfold file_text.
  destruct (stat_touch st p now q) as [->|(c & m & -> & ->)]; done.
Qed.

Lemma isfile_touch st p now q : isfile (touch st p now) q = isfile st q.
Proof.
  unfold isfile.
  destruct (stat_touch st p now q) as [->|(c & m & -> & ->)]; done.
Qed.

Lemma path_exists_touch st p now q :
  path_exists (touch st p now) q = path_exists st q.
Proof.
  unfold path_exists.
  destruct (stat_touch st p now q) as [->|(c & m & -> & ->)]; done.
Qed.

Lemma touch_frame st p now :
  root (touch st p now) = root st
  ∧ current (touch st p now) = current st
  ∧ cache (touch st p now) = cache st
  ∧ dom (snapshots (touch st p now)) = dom (snapshots st).
Proof.
  unfold touch. repeat case_match; try done.
  split_and!; try done. simpl. apply dom_alter_L.
Qed.

Lemma touch_not_file st p now : isfile st p = false → touch st p now = st.
Proof.
  unfold isfile, touch. destruct (locate st p) as [[snap rel]|]; [|done].
  by destruct (stat st p) as [[]|].
Qed.

Section Detector.
Context (env : Env).

Lemma meta_contains_run storage content st :
  outcome (meta_contains env storage content) st
    = Ok (bool_decide (file_text st (current_meta storage) = Some content))
  ∧ store_after (meta_contains env storage content) st
    = touch st (current_meta storage) (clock env)
  ∧ events (meta_contains env storage content) st = [].
Proof.
  unfold outcome, store_after, events, meta_contains, fresh.
  fold (current_meta storage).
  run_steps.
  destruct (isfile st (current_meta storage)) eqn:Hf; run_steps.
  - rewrite file_text_touch. unfold isfile, file_text in *.
    destruct (stat st (current_meta storage)) as [[c m|]|]; try done.
    simpl. split_and!; try done. f_equal.
    apply bool_decide_ext. split; congruence.
  - rewrite touch_not_file by done. split_and!; try done.
    unfold isfile, file_text in *.
    by destruct (stat st (current_meta storage)) as [[c m|]|].
Qed.

End Detector.

Lemma components_join1_name a name :
  starts_with_slash name = false →
  components name = [name] →
  components (join1 a name) = components a ++ [name].
Proof. intros Hs Hc. by rewrite components_join1, Hc. Qed.

Lemma components_current_meta storage :
  components (current_meta storage)
    = components storage ++ ["current"; "maas.meta"].
Proof.
  unfold current_meta, path_join. simpl.
  rewrite !components_join1_name by done.
  by rewrite <- app_assoc.
Qed.

(** The Metadata Record of the active Snapshot is reached through the
    Current Pointer. *)
Lemma locate_current_meta st storage :
  components storage = root st →
  locate st (current_meta storage) =
  t ← current st;
  match drop_prefix (root st) (link_dest st t) with
  | Some (snap :: sub) => Some (snap, sub ++ ["maas.meta"])
  | _ => None
  end.
Proof.
  intros Hroot. unfold locate.
  rewrite components_current_meta, Hroot, drop_prefix_app.
  by rewrite decide_True.
Qed.

Lemma cold_start_no_record st storage :
  components storage = root st → current st = None →
  stat st (current_meta storage) = None.
Proof.
  intros Hroot Hcur. unfold stat.
  by rewrite locate_current_meta, Hcur.
Qed.

(** C1: the Change Detector reports "unchanged" exactly when there is a
    Current Pointer and the Metadata Record stored in the active Snapshot
    is, as a text, equal to the candidate; without a Current Pointer and
    without a current meta file it reports "changed"; it never reports
    "unchanged" for a candidate that differs from the stored record; it
    always gives an answer; and the record it compares with is the one of
    the snapshot directory the Current Pointer names. *)
Theorem meta_contains_unchanged_iff env storage content w :
  components storage = root (store w) →
  let stored := file_text (store w) (current_meta storage) in
  let answer := (meta_contains env storage content w).1 in
  (answer = Ok true ↔ is_Some (current (store w)) ∧ stored = Some content)
  ∧ (current (store w) = None → answer = Ok false)
  ∧ (isfile (store w) (current_meta storage) = false → answer = Ok false)
  ∧ (∀ text, stored = Some text → text ≠ content → answer = Ok false)
  ∧ (∃ b, answer = Ok b)
  ∧ (∀ t snap,
       current (store w) = Some t →
       drop_prefix (root (store w)) (link_dest (store w) t) = Some [snap] →
       stored = snapshots (store w) !! snap ≫= record_of).
Proof.
  intros Hroot stored answer.
  assert (answer = Ok (bool_decide (stored = Some content))) as ->.
  { unfold answer. rewrite (parametric_meta_contains env storage content w).
    simpl. apply meta_contains_run. }
  assert (current (store w) = None → stored = None) as Hcold.
  { intros Hcur. unfold stored, file_text.
    by rewrite cold_start_no_record. }
  split_and!.
  - split.
    + intros [=Hb]. apply bool_decide_eq_true in Hb. split; [|done].
      destruct (current (store w)) eqn:Hcur; [by eexists|].
      rewrite Hcold in Hb; done.
    + intros [_ ->]. by rewrite bool_decide_eq_true_2.
  - intros ->%Hcold. done.
  - intros Hf. f_equal. apply bool_decide_eq_false_2.
    unfold stored, file_text, isfile in *.
    by destruct (stat (store w) (current_meta storage)) as [[]|].
  - intros text -> Hne. f_equal. apply bool_decide_eq_false_2. congruence.
  - by eexists.
  - intros t snap Hcur Hlink. unfold stored, file_text, stat.
    rewrite locate_current_meta, Hcur by done. simpl. rewrite Hlink. simpl.
    by destruct (snapshots (store w) !! snap).
Qed.

Lemma meta_contains_unchanged_iff_witness :
  let env := Scenario.make_env "{A}" Scenario.download_ok [Scenario.xenial]
               (Ok tt) Scenario.no_fault in
  let w := Scenario.world Scenario.settled in
  components Scenario.storage = root (store w)
  ∧ (meta_contains env Scenario.storage "{A}" w).1 = Ok true
  ∧ (meta_contains env Scenario.storage "{B}" w).1 = Ok false.
Proof.
  intros env w. split; [reflexivity|]. split.
  - destruct (meta_contains_unchanged_iff env Scenario.storage "{A}" w
                eq_refl) as [Hiff _].
    apply Hiff. split; [by eexists|]. vm_compute. done.
  - destruct (meta_contains_unchanged_iff env Scenario.storage "{B}" w
                eq_refl) as (_ & _ & _ & Hdiff & _ & _).
    apply (Hdiff "{A}"); [vm_compute; done|done].
Defined.

(** ** The Target Registrar *)

(** The Registrar writes nothing into the StorageRoot. *)
Lemma update_targets_conf_store env snapshot st :
  store_after (update_targets_conf env snapshot) st = st.
Proof.
  unfold store_after, update_targets_conf, fresh. run_steps.
  destruct (ensure_service_wait env "tgt" 30); [|done]. simpl.
  destruct (path_exists st _); simpl; [|done].
  destruct (call_and_check env _) as [|e]; [done|].
  by destruct e.
Qed.

(** C9 as the specification words it fails: the wait for the tgt
    service comes before the look at the Target Descriptor and stands
    outside every handler, so that against a snapshot directory without a
    descriptor, the service being down, the Registrar raises. *)
Lemma missing_descriptor_service_down_counterexample :
  let st := Scenario.add_snapshot "snapshot-9" Scenario.snapshot_bare
              Scenario.settled in
  let run := update_targets_conf Faults.env_tgt_down "/srv/boot/snapshot-9"
               (Scenario.world st) in
  path_exists st "/srv/boot/snapshot-9" = true
  ∧ path_exists st "/srv/boot/snapshot-9/maas.tgt" = false
  ∧ run.1 = Raise Faults.tgt_down
  ∧ trace run.2 = [UpdateTargets "/srv/boot/snapshot-9";
                   EnsureService "tgt" 30].
Proof. vm_compute. done. Qed.

(** C9, amended: against a Snapshot path without a Target Descriptor,
    once the wait for the tgt service has returned, the Registrar leaves
    the reload out (no command is run) and returns without error, the
    StorageRoot being as it was. *)
Theorem update_targets_conf_missing_descriptor env snapshot w :
  path_exists (store w) (path_join snapshot ["maas.tgt"]) = false →
  ensure_service_wait env "tgt" 30 = Ok tt →
  update_targets_conf env snapshot w =
  (Ok tt, {| store := store w;
             trace := trace w ++ [UpdateTargets snapshot;
                                  EnsureService "tgt" 30] |}).
Proof.
  intros Hmissing Hwait. unfold update_targets_conf. run_steps.
  rewrite Hwait. simpl. rewrite Hmissing. simpl.
  by rewrite <- app_assoc.
Qed.

Lemma update_targets_conf_missing_descriptor_witness :
  let env := Scenario.make_env "{A}" Scenario.download_ok [Scenario.xenial]
               (Raise (OtherException "RuntimeError" "never run"))
               Scenario.no_fault in
  let st := Scenario.add_snapshot "snapshot-9" Scenario.snapshot_bare
              Scenario.settled in
  update_targets_conf env "/srv/boot/snapshot-9" (Scenario.world st) =
  (Ok tt, {| store := st;
             trace := [UpdateTargets "/srv/boot/snapshot-9";
                       EnsureService "tgt" 30] |}).
Proof.
  intros env st.
  apply (update_targets_conf_missing_descriptor env "/srv/boot/snapshot-9"
           (Scenario.world st)); reflexivity.
Defined.

(** C8 as the specification words it fails: when the daemon cannot be
    reached in that the tgt service does not come up, the wait raises
    before the reload is tried, and the Registrar raises to its caller:
    no warning is sent, and what the pipeline would do next is not
    done. *)
Lemma registrar_service_down_counterexample :
  let w := Scenario.world Scenario.settled in
  let run := update_targets_conf Faults.env_tgt_down "/srv/boot/current" w in
  let next := (update_targets_conf Faults.env_tgt_down "/srv/boot/current"
               ;; emit FetchDescriptions) w in
  path_exists Scenario.settled "/srv/boot/current/maas.tgt" = true
  ∧ run.1 = Raise Faults.tgt_down
  ∧ trace run.2 = [UpdateTargets "/srv/boot/current";
                   EnsureService "tgt" 30]
  ∧ next.1 = Raise Faults.tgt_down
  ∧ trace next.2 = trace run.2.
Proof. vm_compute. done. Qed.

(** C8, amended: when the reload fails with an [ExternalProcessError]
    (the daemon cannot be reached by [tgt-admin], or rejects the
    configuration), the Registrar, once the wait for the tgt service has
    returned, reports a warning and nothing more: it returns to its
    caller, the StorageRoot and with it the Current Pointer are as they
    were, and whatever the pipeline does next is done. *)
Theorem update_targets_conf_reload_failure env snapshot msg w :
  ensure_service_wait env "tgt" 30 = Ok tt →
  path_exists (store w) (path_join snapshot ["maas.tgt"]) = true →
  call_and_check env (reload_command env snapshot)
    = Raise (ExternalProcessError msg) →
  let warning := Text ("Unable to update TGT config: " +:+ msg) in
  let w' := {| store := store w;
               trace := trace w ++ [UpdateTargets snapshot;
                                    EnsureService "tgt" 30;
                                    RunCommand (reload_command env snapshot);
                                    RackEvent RACK_IMPORT_WARNING warning;
                                    Log WARNING warning] |} in
  update_targets_conf env snapshot w = (Ok tt, w')
  ∧ current (store w') = current (store w)
  ∧ ∀ B (rest : unit → M B),
      (update_targets_conf env snapshot ≫= rest) w = rest tt w'.
Proof.
  intros Hwait Hpresent Hreload warning w'.
  assert (update_targets_conf env snapshot w = (Ok tt, w')) as Hrun.
  { unfold update_targets_conf. run_steps.
    rewrite Hwait. simpl. rewrite Hpresent. simpl.
    fold (reload_command env snapshot). rewrite Hreload. simpl.
    unfold w'. by rewrite <- !app_assoc. }
  split_and!; [done..|].
  intros B rest. unfold mbind, M_bind. by rewrite Hrun.
Qed.

Lemma update_targets_conf_reload_failure_witness :
  let env := Scenario.make_env "{A}" Scenario.download_ok [Scenario.xenial]
               (Raise (ExternalProcessError "tgtadm: can't connect to tgtd"))
               Scenario.no_fault in
  let w := Scenario.world Scenario.settled in
  update_targets_conf env "/srv/boot/current" w =
  (Ok tt,
   {| store := Scenario.settled;
      trace :=
        [UpdateTargets "/srv/boot/current";
         EnsureService "tgt" 30;
         RunCommand ["sudo"; "-n"; "/usr/sbin/tgt-admin"; "--conf";
                     "/srv/boot/current/maas.tgt"; "--update"; "ALL"];
         RackEvent RACK_IMPORT_WARNING
           (Text "Unable to update TGT config: tgtadm: can't connect to tgtd");
         Log WARNING
           (Text "Unable to update TGT config: tgtadm: can't connect to tgtd")]
   |}).
Proof.
  intros env w.
  apply (update_targets_conf_reload_failure env "/srv/boot/current"
           "tgtadm: can't connect to tgtd" w); reflexivity.
Defined.

(** What the Registrar does depends on the StorageRoot only through the
    presence of the Target Descriptor. *)
Lemma update_targets_conf_depends env snapshot st1 st2 :
  path_exists st1 (path_join snapshot ["maas.tgt"])
    = path_exists st2 (path_join snapshot ["maas.tgt"]) →
  outcome (update_targets_conf env snapshot) st1
    = outcome (update_targets_conf env snapshot) st2
  ∧ events (update_targets_conf env snapshot) st1
    = events (update_targets_conf env snapshot) st2.
Proof.
  intros Hsame. unfold outcome, events, update_targets_conf, fresh.
  run_steps. destruct (ensure_service_wait env "tgt" 30); [|done]. simpl.
  rewrite Hsame. destruct (path_exists st2 _); simpl; [|done].
  destruct (call_and_check env _) as [|e]; [done|]. by destruct e.
Qed.

(** One run of the Registrar is one invocation, and no action on the
    StorageRoot. *)
Lemma update_targets_conf_events env snapshot st :
  ∃ evs, events (update_targets_conf env snapshot) st
           = UpdateTargets snapshot :: evs
         ∧ registrar_calls evs = [] ∧ storage_actions evs = [].
Proof.
  unfold events, update_targets_conf, fresh. run_steps.
  destruct (ensure_service_wait env "tgt" 30); [|by eexists]. simpl.
  destruct (path_exists st _); simpl; [|by eexists].
  destruct (call_and_check env _) as [|e]; [by eexists|].
  destruct e; by eexists.
Qed.

Lemma update_iscsi_targets_run env snapshot_path st :
  outcome (update_iscsi_targets env snapshot_path) st
    = outcome (update_targets_conf env snapshot_path) st
  ∧ store_after (update_iscsi_targets env snapshot_path) st = st
  ∧ events (update_iscsi_targets env snapshot_path) st
    = Log INFO (Text "Updating boot image iSCSI targets.")
      :: events (update_targets_conf env snapshot_path) st.
Proof.
  unfold outcome, store_after, events, update_iscsi_targets, fresh.
  run_steps.
  rewrite (parametric_update_targets_conf env snapshot_path
             {| store := st; trace := [_] |}). simpl.
  rewrite update_targets_conf_store. split_and!; reflexivity.
Qed.

(** ** The orchestrator: runs that stop early *)

Lemma registrar_calls_app evs1 evs2 :
  registrar_calls (evs1 ++ evs2) = registrar_calls evs1 ++ registrar_calls evs2.
Proof. apply omap_app. Qed.

Lemma storage_actions_app evs1 evs2 :
  storage_actions (evs1 ++ evs2) = storage_actions evs1 ++ storage_actions evs2.
Proof. apply List.filter_app. Qed.

(** C10: with no source at all, [import_images] returns [False] having
    only sent and logged its warning: the catalog is not fetched, the
    StorageRoot is as it was, and the Registrar is not run; whereas with
    sources and an empty catalog the Registrar is run against the
    active Snapshot. *)
Theorem import_images_no_sources env w :
  import_images env [] w =
  (Ok false,
   {| store := store w;
      trace := trace w ++
        [RackEvent RACK_IMPORT_WARNING
           (Text "Can't import: region did not provide a source.");
         Log WARNING
           (Text "Can't import: region did not provide a source.")] |})
  ∧ ∀ sources d,
      sources ≠ [] →
      download_all_image_descriptions env (prepared_sources env sources)
        = Ok d →
      is_empty d = true →
      registrar_calls (trace (import_images env sources w).2)
        = registrar_calls (trace w)
          ++ [path_join (tftp_root_parent env) ["current"]].
Proof.
  split.
  - unfold import_images. simpl. run_steps. by rewrite <- app_assoc.
  - intros sources d Hsources Hcatalog Hempty.
    unfold import_images. rewrite decide_False
      by (by destruct sources).
    run_steps. fold (prepared_sources env sources).
    rewrite Hcatalog. simpl. rewrite Hempty.
    rewrite (parametric_update_iscsi_targets env _ {| store := _ |}).
    simpl.
    destruct (update_iscsi_targets_run env
                (path_join (tftp_root_parent env) ["current"]) (store w))
      as (-> & -> & ->).
    destruct (update_targets_conf_events env
                (path_join (tftp_root_parent env) ["current"]) (store w))
      as (evs & -> & Hcalls & _).
    destruct (outcome _ _); simpl;
      rewrite !registrar_calls_app; simpl; rewrite Hcalls;
      by rewrite ?app_nil_r.
Qed.

(** C6 as the specification words it fails: the call to the Registrar
    on the unchanged branch is unguarded, so that with the tgt service
    down a run that found the catalog unchanged does not end
    successfully: it raises what the Registrar raises. *)
Lemma unchanged_service_down_counterexample :
  let w := Scenario.world Scenario.settled in
  let run := import_images Faults.env_tgt_down Scenario.one_source w in
  (meta_contains Faults.env_tgt_down "/srv/boot" "{A}" w).1 = Ok true
  ∧ run.1 = Raise Faults.tgt_down
  ∧ registrar_calls (trace run.2) = ["/srv/boot/current"]
  ∧ storage_actions (trace run.2) = [].
Proof. vm_compute. done. Qed.

(** C6, amended: when the Change Detector reports "unchanged", the run
    invokes the Registrar once, against the active Snapshot, and neither
    the Downloader nor the Committer (no write, no repointing, no
    loader) nor the Reaper; nothing of the StorageRoot changes but the
    time of the stored Metadata Record; when the Registrar returns the
    run ends normally, returning [False], and when the Registrar raises
    the run raises the same. *)
Theorem import_images_unchanged env sources d w :
  sources ≠ [] →
  download_all_image_descriptions env (prepared_sources env sources) = Ok d →
  is_empty d = false →
  (meta_contains env (tftp_root_parent env) (dump_json d) w).1 = Ok true →
  let storage := tftp_root_parent env in
  let active := path_join storage ["current"] in
  let run := import_images env sources w in
  ∃ evs,
    trace run.2 = trace w ++ evs
    ∧ registrar_calls evs = [active]
    ∧ storage_actions evs = []
    ∧ store run.2 = touch (store w) (current_meta storage) (clock env)
    ∧ current (store run.2) = current (store w)
    ∧ dom (snapshots (store run.2)) = dom (snapshots (store w))
    ∧ cache (store run.2) = cache (store w)
    ∧ match outcome (update_targets_conf env active) (store w) with
      | Ok _ => run.1 = Ok false
      | Raise e => run.1 = Raise e
      end.
Proof.
  intros Hsources Hcatalog Hnonempty Hunchanged storage active run.
  rewrite (parametric_meta_contains env storage _ w) in Hunchanged.
  simpl in Hunchanged.
  destruct (meta_contains_run env storage (dump_json d) (store w))
    as (Hanswer & Hstore & Hevents).
  unfold run, import_images. rewrite decide_False by (by destruct sources).
  run_steps. fold (prepared_sources env sources).
  rewrite Hcatalog. simpl. rewrite Hnonempty.
  rewrite (parametric_meta_contains env _ _ {| store := _ |}). simpl.
  fold storage. rewrite Hunchanged, Hstore, Hevents. fold active.
  rewrite (parametric_update_iscsi_targets env _ {| store := _ |}). simpl.
  destruct (update_iscsi_targets_run env active
              (touch (store w) (current_meta storage) (clock env)))
    as (-> & -> & ->).
  destruct (update_targets_conf_depends env active
              (touch (store w) (current_meta storage) (clock env)) (store w)
              (path_exists_touch _ _ _ _)) as [-> ->].
  destruct (update_targets_conf_events env active (store w))
    as (evs & -> & Hcalls & Hactions).
  destruct (touch_frame (store w) (current_meta storage) (clock env))
    as (_ & Hcur & Hcache & Hdom).
  destruct (outcome (update_targets_conf env active) (store w)); simpl;
    eexists; (split; [rewrite <- !app_assoc; simpl; reflexivity|]);
    rewrite ?registrar_calls_app, ?storage_actions_app; simpl;
    rewrite ?registrar_calls_app, ?storage_actions_app, ?Hcalls, ?Hactions;
    simpl; by rewrite ?app_nil_r.
Qed.

Lemma import_images_unchanged_witness :
  let env := Scenario.make_env "{A}" Scenario.download_ok [Scenario.xenial]
               (Ok tt) Scenario.no_fault in
  let w := Scenario.world Scenario.settled in
  (import_images env Scenario.one_source w).1 = Ok false
  ∧ current (store (import_images env Scenario.one_source w).2)
    = Some "/srv/boot/snapshot-1".
Proof.
  intros env w.
  destruct (import_images_unchanged env Scenario.one_source
              {| is_empty := false; dump_json := "{A}" |} w)
    as (evs & _ & _ & _ & _ & Hcur & _ & _ & Hresult);
    [done|reflexivity|reflexivity|vm_compute; reflexivity|].
  split; [|exact Hcur].
  assert (outcome (update_targets_conf env
                     (path_join (tftp_root_parent env) ["current"]))
            (store w) = Ok tt) as Hreturns by (vm_compute; reflexivity).
  rewrite Hreturns in Hresult. exact Hresult.
Defined.

(** ** The steps of the commit *)

Section Commit.
Context (env : Env).

Lemma put_file_frame st p content now st' :
  put_file st p content now = Some st' →
  root st' = root st ∧ current st' = current st ∧ cache st' = cache st
  ∧ dom (snapshots st') = dom (snapshots st).
Proof.
  unfold put_file. destruct (locate st p) as [[snap rel]|]; [|done]. simpl.
  destruct (snapshots st !! snap); [|done]. simpl.
  destruct rel; [done|]. destruct (stat st p) as [[]|]; intros [= <-];
    split_and!; try done; simpl; apply dom_alter_L.
Qed.

(** A write puts one file into a snapshot directory or fails; either
    way the Current Pointer, the set of Snapshots and the Cache are as
    they were. *)
Lemma atomic_write_run content filename st :
  events (atomic_write env content filename) st = [WriteFile filename]
  ∧ current (store_after (atomic_write env content filename) st) = current st
  ∧ dom (snapshots (store_after (atomic_write env content filename) st))
    = dom (snapshots st)
  ∧ cache (store_after (atomic_write env content filename) st) = cache st
  ∧ (∀ e, write_fault env filename = Some e →
       outcome (atomic_write env content filename) st = Raise e
       ∧ store_after (atomic_write env content filename) st = st).
Proof.
  unfold events, store_after, outcome, atomic_write, fresh. run_steps.
  destruct (write_fault env filename) as [e|]; simpl.
  - split_and!; try done. by intros ? [= <-].
  - destruct (put_file st filename content (clock env)) as [st'|] eqn:Hput;
      simpl; [|done].
    destruct (put_file_frame _ _ _ _ _ Hput) as (_ & ? & ? & ?). done.
Qed.

Lemma write_snapshot_metadata_run snapshot content st :
  registrar_calls (events (write_snapshot_metadata env snapshot content) st)
    = []
  ∧ List.filter is_storage_action
      (events (write_snapshot_metadata env snapshot content) st)
    = events (write_snapshot_metadata env snapshot content) st
  ∧ Forall (λ e, ∃ p, e = WriteFile p)
      (events (write_snapshot_metadata env snapshot content) st)
  ∧ current (store_after (write_snapshot_metadata env snapshot content) st)
    = current st
  ∧ dom (snapshots
           (store_after (write_snapshot_metadata env snapshot content) st))
    = dom (snapshots st)
  ∧ cache (store_after (write_snapshot_metadata env snapshot content) st)
    = cache st.
Proof.
  unfold write_snapshot_metadata. destruct (is_ascii content).
  - destruct (atomic_write_run content (path_join snapshot ["maas.meta"]) st)
      as (-> & -> & -> & -> & _).
    split_and!; try done. repeat constructor. by eexists.
  - by split_and!.
Qed.

Lemma write_targets_conf_run snapshot st :
  registrar_calls (events (write_targets_conf env snapshot) st) = []
  ∧ Forall (λ e, ∃ p, e = WriteFile p)
      (events (write_targets_conf env snapshot) st)
  ∧ current (store_after (write_targets_conf env snapshot) st) = current st
  ∧ dom (snapshots (store_after (write_targets_conf env snapshot) st))
    = dom (snapshots st)
  ∧ cache (store_after (write_targets_conf env snapshot) st) = cache st.
Proof.
  unfold write_targets_conf, events, store_after, fresh.
  unfold mbind, M_bind. rewrite compose_targets_conf_run. simpl.
  set (text := str_join _).
  destruct (atomic_write_run text (path_join snapshot ["maas.tgt"]) st)
    as (Hev & Hcur & Hdom & Hcache & _).
  unfold events, store_after, fresh in *.
  rewrite Hev, Hcur, Hdom, Hcache.
  split_and!; try done. repeat constructor. by eexists.
Qed.

Lemma cleanup_run storage st :
  outcome (cleanup_snapshots_and_cache storage) st = Ok tt
  ∧ events (cleanup_snapshots_and_cache storage) st = [Cleanup storage]
  ∧ store_after (cleanup_snapshots_and_cache storage) st
    = if decide (components storage = root st) then reap st else st.
Proof.
  unfold outcome, events, store_after, cleanup_snapshots_and_cache, fresh.
  run_steps. by destruct (decide _).
Qed.

Lemma download_boot_resources_run sources storage pm st :
  outcome (download_boot_resources env sources storage pm) st
    = (download_all_boot_resources env sources storage pm st).1
  ∧ store_after (download_boot_resources env sources storage pm) st
    = (download_all_boot_resources env sources storage pm st).2
  ∧ events (download_boot_resources env sources storage pm) st
    = [Download storage].
Proof.
  unfold outcome, events, store_after, download_boot_resources, fresh.
  run_steps. by destruct (download_all_boot_resources env _ _ _ st).
Qed.

Lemma update_current_symlink_run storage latest st :
  events (update_current_symlink env storage latest) st
    = [Symlink latest (path_join storage ["current"])]
  ∧ (outcome (update_current_symlink env storage latest) st = Ok tt →
     current (store_after (update_current_symlink env storage latest) st)
       = Some latest)
  ∧ (∀ e, outcome (update_current_symlink env storage latest) st = Raise e →
     store_after (update_current_symlink env storage latest) st = st).
Proof.
  unfold update_current_symlink, outcome, events, store_after,
    atomic_symlink, fresh. run_steps.
  destruct (write_fault env _); simpl; [done|].
  by destruct (decide _).
Qed.

End Commit.

Lemma link_one_run destination bm w :
  link_one destination bm w =
  match link_bootloader bm destination (store w) with
  | (Ok _, st') =>
      (Ok tt, {| store := st';
                 trace := trace w ++
                   [LinkBootloader (bm_name bm) destination] |})
  | (Raise _, st') =>
      (Ok tt, {| store := st';
                 trace := trace w ++
                   [LinkBootloader (bm_name bm) destination;
                    RackEvent RACK_IMPORT_ERROR
                      (Pair "Unable to link the %s bootloader." (bm_name bm));
                    Log ERROR
                      (Pair "Unable to link the %s bootloader." (bm_name bm))]
              |})
  end.
Proof.
  unfold link_one. run_steps.
  destruct (link_bootloader bm destination (store w)) as [[[]|e] st'];
    simpl; [done|]. by rewrite <- !app_assoc.
Qed.

Lemma link_bootloaders_loop destination (l : list BootMethod) w :
  ∃ st' evs,
    for_each l (link_one destination) w
    = (Ok tt, {| store := st'; trace := trace w ++ evs |})
    ∧ forallb is_loader_event evs = true
    ∧ ∀ bm, bm ∈ l →
        (∀ st, ∃ e, (link_bootloader bm destination st).1 = Raise e) →
        RackEvent RACK_IMPORT_ERROR
          (Pair "Unable to link the %s bootloader." (bm_name bm)) ∈ evs.
Proof.
  revert w. induction l as [|bm l IH]; intros w.
  - exists (store w), []. simpl. rewrite app_nil_r, world_eta.
    split_and!; [done..|]. intros bm Hbm. by apply elem_of_nil in Hbm.
  - simpl. unfold mbind, M_bind. rewrite link_one_run.
    destruct (link_bootloader bm destination (store w)) as [[[]|e] st1] eqn:Hl.
    + destruct (IH {| store := st1;
                      trace := trace w ++
                        [LinkBootloader (bm_name bm) destination] |})
        as (st' & evs & -> & Hall & Herr). simpl.
      exists st', (LinkBootloader (bm_name bm) destination :: evs).
      split_and!; [by rewrite <- app_assoc|done|].
      intros bm' [->|Hin]%elem_of_cons Hraises.
      * destruct (Hraises (store w)) as [e He]. by rewrite Hl in He.
      * right. by apply Herr.
    + destruct (IH {| store := st1;
                      trace := trace w ++
                        [LinkBootloader (bm_name bm) destination;
                         RackEvent RACK_IMPORT_ERROR
                           (Pair "Unable to link the %s bootloader."
                                 (bm_name bm));
                         Log ERROR
                           (Pair "Unable to link the %s bootloader."
                                 (bm_name bm))] |})
        as (st' & evs & -> & Hall & Herr). simpl.
      exists st', (LinkBootloader (bm_name bm) destination
                   :: RackEvent RACK_IMPORT_ERROR
                        (Pair "Unable to link the %s bootloader." (bm_name bm))
                   :: Log ERROR
                        (Pair "Unable to link the %s bootloader." (bm_name bm))
                   :: evs).
      split_and!; [by rewrite <- app_assoc|done|].
      intros bm' [->|Hin]%elem_of_cons Hraises.
      * right. by left.
      * do 3 right. by apply Herr.
Qed.

Lemma loader_events_no_registrar evs :
  forallb is_loader_event evs = true → registrar_calls evs = [].
Proof.
  induction evs as [|e evs IH]; simpl; [done|].
  intros [He Hevs]%andb_prop. destruct e; try done; by apply IH.
Qed.

(** Step 4 never aborts the commit: linking returns normally whatever
    the loaders do, reporting each failure as an error. *)
Lemma link_bootloaders_run env destination st :
  outcome (link_bootloaders env destination) st = Ok tt
  ∧ forallb is_loader_event (events (link_bootloaders env destination) st)
    = true
  ∧ ∀ bm, bm ∈ BootMethodRegistry env →
      (∀ st, ∃ e, (link_bootloader bm destination st).1 = Raise e) →
      RackEvent RACK_IMPORT_ERROR
        (Pair "Unable to link the %s bootloader." (bm_name bm))
      ∈ events (link_bootloaders env destination) st.
Proof.
  unfold outcome, events, link_bootloaders.
  destruct (link_bootloaders_loop destination (BootMethodRegistry env)
              (fresh st)) as (st' & evs & -> & Hall & Herr).
  done.
Qed.

(** A loader that raises where the loop runs it is reported, by an
    error event and an error line, whatever the others do. *)
Lemma link_bootloaders_reports destination (before : list BootMethod) bm
    (after : list BootMethod) w e :
  (link_bootloader bm destination
     (store (for_each before (link_one destination) w).2)).1 = Raise e →
  ∃ evs,
    trace (for_each (before ++ bm :: after) (link_one destination) w).2
      = trace w ++ evs
    ∧ LinkBootloader (bm_name bm) destination ∈ evs
    ∧ RackEvent RACK_IMPORT_ERROR
        (Pair "Unable to link the %s bootloader." (bm_name bm)) ∈ evs
    ∧ Log ERROR (Pair "Unable to link the %s bootloader." (bm_name bm))
      ∈ evs.
Proof.
  revert w. induction before as [|bm' before IH]; intros w Hraise.
  - simpl in *. unfold mbind, M_bind. rewrite link_one_run.
    destruct (link_bootloader bm destination (store w)) as [[[]|e'] st1];
      [done|].
    destruct (link_bootloaders_loop destination after
                {| store := st1;
                   trace := trace w ++
                     [LinkBootloader (bm_name bm) destination;
                      RackEvent RACK_IMPORT_ERROR
                        (Pair "Unable to link the %s bootloader."
                              (bm_name bm));
                      Log ERROR
                        (Pair "Unable to link the %s bootloader."
                              (bm_name bm))] |})
      as (st' & evs & -> & _). simpl.
    eexists. split; [by rewrite <- app_assoc|].
    rewrite !elem_of_app, !elem_of_cons. tauto.
  - simpl in *. unfold mbind, M_bind in *. rewrite link_one_run in *.
    destruct (link_bootloader bm' destination (store w)) as [[[]|e'] st1];
      match goal with
      | |- context [for_each _ _ ?w1] =>
          destruct (IH w1 Hraise) as (evs & -> & Hattempt & Hevent & Hline)
      end; simpl;
      (eexists; split; [by rewrite <- app_assoc|]);
      rewrite !elem_of_app; tauto.
Qed.

Lemma link_bootloaders_run_reports env destination st before bm after e :
  BootMethodRegistry env = before ++ bm :: after →
  (link_bootloader bm destination
     (store_after (for_each before (link_one destination)) st)).1
    = Raise e →
  RackEvent RACK_IMPORT_ERROR
    (Pair "Unable to link the %s bootloader." (bm_name bm))
  ∈ events (link_bootloaders env destination) st
  ∧ Log ERROR (Pair "Unable to link the %s bootloader." (bm_name bm))
    ∈ events (link_bootloaders env destination) st.
Proof.
  intros Hregistry Hraise. unfold events, link_bootloaders.
  rewrite Hregistry.
  destruct (link_bootloaders_reports destination before bm after (fresh st) e
              Hraise) as (evs & -> & _ & Hevent & Hline).
  done.
Qed.

(** So is a loader of the registry that cannot but raise. *)
Lemma link_bootloaders_always_reports env destination st bm :
  bm ∈ BootMethodRegistry env →
  (∀ st', ∃ e, (link_bootloader bm destination st').1 = Raise e) →
  RackEvent RACK_IMPORT_ERROR
    (Pair "Unable to link the %s bootloader." (bm_name bm))
  ∈ events (link_bootloaders env destination) st
  ∧ Log ERROR (Pair "Unable to link the %s bootloader." (bm_name bm))
    ∈ events (link_bootloaders env destination) st.
Proof.
  intros (before & after & Hregistry)%list_elem_of_split Hraises.
  destruct (Hraises (store_after (for_each before (link_one destination)) st))
    as [e He].
  by apply (link_bootloaders_run_reports env destination st before bm after e).
Qed.

(** ** Runs that reach the staging phase *)


(** What the Reaper leaves: the Current Pointer as it was, of the
    Snapshots the active one only, and of the Cache what that one
    refers to. *)
Lemma reap_spec st :
  root (reap st) = root st
  ∧ current (reap st) = current st
  ∧ (∀ name s, snapshots (reap st) !! name = Some s ↔
       snapshots st !! name = Some s ∧ active_snapshot st = Some name)
  ∧ (∀ c, c ∈ cache (reap st) ↔
       c ∈ cache st ∧
       ∃ name s, snapshots st !! name = Some s
                 ∧ active_snapshot st = Some name ∧ c ∈ cache_refs s).
Proof.
  split_and!; [done..| |].
  - intros name s. simpl. rewrite map_lookup_filter_Some. simpl.
    split; intros [? ?]; done.
  - intros c. simpl. rewrite elem_of_intersection, elem_of_union_list.
    split; intros [Hc Hrefs]; (split; [done|]).
    + destruct Hrefs as (X & HX & HcX).
      apply list_elem_of_fmap in HX as (s & -> & Hs).
      apply list_elem_of_fmap in Hs as ([name s'] & -> & Hin).
      apply elem_of_map_to_list, map_lookup_filter_Some in Hin as [? ?].
      by exists name, s'.
    + destruct Hrefs as (name & s & Hs & Hact & Hcs).
      exists (cache_refs s). split; [|done].
      apply list_elem_of_fmap. exists s. split; [done|].
      apply list_elem_of_fmap. exists (name, s). split; [done|].
      apply elem_of_map_to_list, map_lookup_filter_Some. done.
Qed.


Lemma Forall_storage_actions (P : Event → Prop) evs :
  Forall P evs → Forall P (storage_actions evs).
Proof.
  induction 1 as [|e evs He Hevs IH]; simpl; [done|].
  destruct (is_storage_action e); [by constructor|done].
Qed.

Section Staging.
Context (env : Env) (sources : list Source) (d : ImageDescriptions).
Context (w : World).
Hypothesis Hsources : sources ≠ [].
Hypothesis Hcatalog :
  download_all_image_descriptions env (prepared_sources env sources) = Ok d.
Hypothesis Hnonempty : is_empty d = false.
Hypothesis Hchanged :
  (meta_contains env (tftp_root_parent env) (dump_json d) w).1 = Ok false.

Let storage : string := tftp_root_parent env.
Let active : string := path_join storage ["current"].
Let started : StorageRoot :=
  touch (store w) (current_meta storage) (clock env).
Let prefix : list Event :=
  [Log INFO (Text "Starting rack boot image import");
   RackEvent RACK_IMPORT_INFO (Text "Starting rack boot image import");
   FetchDescriptions;
   Download storage].

(** The run when the Downloader raises an exception. *)
Lemma import_images_download_raises e st2 :
  download_all_boot_resources env (prepared_sources env sources)
    storage (map_products env d) started = (Raise e, st2) →
  is_Exception e = true →
  import_images env sources w =
  let reported :=
    [RackEvent RACK_IMPORT_ERROR
       (Text ("Unable to import boot images: " +:+ exn_text e));
     Log INFO (Text "Updating boot image iSCSI targets.")]
    ++ events (update_targets_conf env active) st2 in
  match outcome (update_targets_conf env active) st2 with
  | Ok _ =>
      (Raise e,
       {| store := if decide (components storage = root st2)
                   then reap st2 else st2;
          trace := trace w ++ prefix ++ reported ++
            [Log ERROR
               (Text ("Unable to import boot images; cleaning up failed "
                      +:+ "snapshot and cache."));
             Cleanup storage] |})
  | Raise e' =>
      (Raise e', {| store := st2; trace := trace w ++ prefix ++ reported |})
  end.
Proof.
  intros Hdownload Hexception.
  rewrite (parametric_meta_contains env storage _ w) in Hchanged.
  simpl in Hchanged.
  destruct (meta_contains_run env storage (dump_json d) (store w))
    as (_ & Hstore & Hevents).
  unfold import_images. rewrite decide_False by (by destruct sources).
  run_steps. fold (prepared_sources env sources).
  rewrite Hcatalog. simpl. rewrite Hnonempty.
  rewrite (parametric_meta_contains env _ _ {| store := _ |}). simpl.
  fold storage. rewrite Hchanged, Hstore, Hevents. simpl.
  rewrite (parametric_download_boot_resources env _ _ _ {| store := _ |}).
  simpl.
  destruct (download_boot_resources_run env (prepared_sources env sources)
              storage (map_products env d)
              (touch (store w) (current_meta storage) (clock env)))
    as (-> & -> & ->).
  subst active started prefix. rewrite Hdownload. simpl.
  rewrite Hexception.
  rewrite (parametric_update_iscsi_targets env _ {| store := _ |}). simpl.
  destruct (update_iscsi_targets_run env (path_join storage ["current"]) st2)
    as (-> & -> & ->).
  destruct (outcome (update_targets_conf env _) st2); simpl.
  - rewrite (parametric_cleanup storage {| store := _ |}). simpl.
    destruct (cleanup_run storage st2) as (-> & -> & ->).
    rewrite <- !app_assoc. simpl. reflexivity.
  - rewrite <- !app_assoc. simpl. reflexivity.
Qed.

(** The run when the Downloader returns a staging directory. *)
Lemma import_images_download_returns sp st2 :
  download_all_boot_resources env (prepared_sources env sources)
    storage (map_products env d) started = (Ok sp, st2) →
  import_images env sources w =
  let m1 := write_snapshot_metadata env sp (dump_json d) in
  let st3 := store_after m1 st2 in
  let t1 := prefix
            ++ [Log INFO
                  (Text "Writing boot image metadata and iSCSI targets.")]
            ++ events m1 st2 in
  match outcome m1 st2 with
  | Raise e => (Raise e, {| store := st3; trace := trace w ++ t1 |})
  | Ok _ =>
      let m2 := write_targets_conf env sp in
      let st4 := store_after m2 st3 in
      let t2 := t1 ++ events m2 st3 in
      match outcome m2 st3 with
      | Raise e => (Raise e, {| store := st4; trace := trace w ++ t2 |})
      | Ok _ =>
          let m3 := link_bootloaders env sp in
          let st5 := store_after m3 st4 in
          let m4 := update_current_symlink env storage sp in
          let st6 := store_after m4 st5 in
          let t4 := t2
                    ++ [Log INFO (Text ("Linking boot images snapshot "
                                        +:+ sp))]
                    ++ events m3 st4 ++ events m4 st5 in
          match outcome m4 st5 with
          | Raise e => (Raise e, {| store := st6; trace := trace w ++ t4 |})
          | Ok _ =>
              let m5 := update_targets_conf env sp in
              let t5 := t4
                        ++ [Log INFO
                              (Text "Updating boot image iSCSI targets.")]
                        ++ events m5 st6 in
              match outcome m5 st6 with
              | Raise e =>
                  (Raise e, {| store := st6; trace := trace w ++ t5 |})
              | Ok _ =>
                  (Ok true,
                   {| store := if decide (components storage = root st6)
                               then reap st6 else st6;
                      trace := trace w ++ t5 ++
                        [Log INFO
                           (Text "Cleaning up old snapshots and cache.");
                         Cleanup storage;
                         Log INFO (Text "Finished importing boot images.");
                         RackEvent RACK_IMPORT_INFO
                           (Text "Finished importing boot images.")] |})
              end
          end
      end
  end.
Proof.
  intros Hdownload.
  rewrite (parametric_meta_contains env storage _ w) in Hchanged.
  simpl in Hchanged.
  destruct (meta_contains_run env storage (dump_json d) (store w))
    as (_ & Hstore & Hevents).
  unfold import_images. rewrite decide_False by (by destruct sources).
  run_steps. fold (prepared_sources env sources).
  rewrite Hcatalog. simpl. rewrite Hnonempty.
  rewrite (parametric_meta_contains env _ _ {| store := _ |}). simpl.
  fold storage. rewrite Hchanged, Hstore, Hevents. simpl.
  rewrite (parametric_download_boot_resources env _ _ _ {| store := _ |}).
  simpl.
  destruct (download_boot_resources_run env (prepared_sources env sources)
              storage (map_products env d)
              (touch (store w) (current_meta storage) (clock env)))
    as (-> & -> & ->).
  subst active started prefix. rewrite Hdownload. simpl.
  rewrite (parametric_write_snapshot_metadata env _ _ {| store := _ |}).
  simpl.
  destruct (outcome (write_snapshot_metadata env sp (dump_json d)) st2);
    simpl; [|by norm_trace].
  rewrite (parametric_write_targets_conf env _ {| store := _ |}). simpl.
  destruct (outcome (write_targets_conf env sp) _); simpl;
    [|by norm_trace].
  rewrite (parametric_link_bootloaders env _ {| store := _ |}). simpl.
  rewrite (proj1 (link_bootloaders_run env sp _)). simpl.
  rewrite (parametric_update_current_symlink env _ _ {| store := _ |}).
  simpl.
  destruct (outcome (update_current_symlink env storage sp) _); simpl;
    [|by norm_trace].
  rewrite (parametric_update_iscsi_targets env _ {| store := _ |}). simpl.
  match goal with
  | |- context [outcome (update_iscsi_targets env sp) ?st] =>
      destruct (update_iscsi_targets_run env sp st) as (-> & -> & ->)
  end.
  destruct (outcome (update_targets_conf env sp) _); simpl;
    [|by norm_trace].
  rewrite (parametric_cleanup storage {| store := _ |}). simpl.
  match goal with
  | |- context [outcome (cleanup_snapshots_and_cache storage) ?st] =>
      destruct (cleanup_run storage st) as (-> & -> & ->)
  end.
  by norm_trace.
Qed.

(** The run when the Downloader raises what is no [Exception]. *)
Lemma import_images_download_interrupted e st2 :
  download_all_boot_resources env (prepared_sources env sources)
    storage (map_products env d) started = (Raise e, st2) →
  is_Exception e = false →
  import_images env sources w =
  (Raise e, {| store := st2; trace := trace w ++ prefix |}).
Proof.
  intros Hdownload Hexception.
  rewrite (parametric_meta_contains env storage _ w) in Hchanged.
  simpl in Hchanged.
  destruct (meta_contains_run env storage (dump_json d) (store w))
    as (_ & Hstore & Hevents).
  unfold import_images. rewrite decide_False by (by destruct sources).
  run_steps. fold (prepared_sources env sources).
  rewrite Hcatalog. simpl. rewrite Hnonempty.
  rewrite (parametric_meta_contains env _ _ {| store := _ |}). simpl.
  fold storage. rewrite Hchanged, Hstore, Hevents. simpl.
  rewrite (parametric_download_boot_resources env _ _ _ {| store := _ |}).
  simpl.
  destruct (download_boot_resources_run env (prepared_sources env sources)
              storage (map_products env d)
              (touch (store w) (current_meta storage) (clock env)))
    as (-> & -> & ->).
  subst active started prefix. rewrite Hdownload. simpl.
  rewrite Hexception. by norm_trace.
Qed.


(** C3, amended: a failure in writing the Metadata Record or the
    Target Descriptor is raised to the caller as it is, and that is all:
    the Current Pointer, the set of Snapshots (the staging directory
    among them) and the Cache are as the Downloader left them, nothing
    is deleted, nothing is repointed, and the Registrar is not invoked.
    Linking the loaders never fails the commit: it returns normally,
    each loader that raises when the loop comes to it, in the
    StorageRoot the loaders before it have left, is reported by an error
    event and by an error log line, and the commit goes on to repoint
    the Current Pointer. *)
Theorem import_images_commit_failure sp st2 :
  download_all_boot_resources env (prepared_sources env sources)
    storage (map_products env d) started = (Ok sp, st2) →
  let m1 := write_snapshot_metadata env sp (dump_json d) in
  let m2 := write_targets_conf env sp in
  let st3 := store_after m1 st2 in
  let run := import_images env sources w in
  ∃ evs,
    trace run.2 = trace w ++ evs
    ∧ (∀ e,
         outcome m1 st2 = Raise e
         ∨ (outcome m1 st2 = Ok tt ∧ outcome m2 st3 = Raise e) →
         run.1 = Raise e
         ∧ registrar_calls evs = []
         ∧ Forall (λ a, a = Download storage ∨ ∃ p, a = WriteFile p)
             (storage_actions evs)
         ∧ current (store run.2) = current st2
         ∧ dom (snapshots (store run.2)) = dom (snapshots st2)
         ∧ cache (store run.2) = cache st2)
    ∧ (outcome m1 st2 = Ok tt → outcome m2 st3 = Ok tt →
       outcome (link_bootloaders env sp) (store_after m2 st3) = Ok tt
       ∧ Symlink sp active ∈ evs
       ∧ (∀ before bm after e,
            BootMethodRegistry env = before ++ bm :: after →
            (link_bootloader bm sp
               (store_after (for_each before (link_one sp))
                  (store_after m2 st3))).1 = Raise e →
            RackEvent RACK_IMPORT_ERROR
              (Pair "Unable to link the %s bootloader." (bm_name bm)) ∈ evs
            ∧ Log ERROR
                (Pair "Unable to link the %s bootloader." (bm_name bm))
              ∈ evs)
       ∧ (∀ bm, bm ∈ BootMethodRegistry env →
            (∀ st, ∃ e, (link_bootloader bm sp st).1 = Raise e) →
            RackEvent RACK_IMPORT_ERROR
              (Pair "Unable to link the %s bootloader." (bm_name bm)) ∈ evs
            ∧ Log ERROR
                (Pair "Unable to link the %s bootloader." (bm_name bm))
              ∈ evs)).
Proof.
  intros Hdownload m1 m2 st3 run.
  unfold run. rewrite (import_images_download_returns sp st2) by done.
  cbv zeta. fold m1 m2 st3.
  destruct (write_snapshot_metadata_run env sp (dump_json d) st2)
    as (Hc1 & _ & Hw1 & Hcur1 & Hdom1 & Hcache1).
  destruct (write_targets_conf_run env sp st3)
    as (Hc2 & Hw2 & Hcur2 & Hdom2 & Hcache2).
  fold m1 in Hc1, Hw1, Hcur1, Hdom1, Hcache1.
  fold st3 in Hcur1, Hdom1, Hcache1.
  fold m2 in Hc2, Hw2, Hcur2, Hdom2, Hcache2.
  assert (Forall (λ a, a = Download storage ∨ ∃ p, a = WriteFile p)
            (storage_actions (events m1 st2))) as Ha1.
  { apply Forall_storage_actions. eapply Forall_impl; [exact Hw1|].
    intros ? [p ->]. right. by exists p. }
  assert (Forall (λ a, a = Download storage ∨ ∃ p, a = WriteFile p)
            (storage_actions (events m2 st3))) as Ha2.
  { apply Forall_storage_actions. eapply Forall_impl; [exact Hw2|].
    intros ? [p ->]. right. by exists p. }
  destruct (outcome m1 st2) as [[]|e1] eqn:Ho1.
  2:{ eexists. split; [reflexivity|]. split; [|done].
      intros e [[= <-]|[? _]]; [|done]. simpl.
      split_and!; subst prefix; simpl;
        rewrite ?registrar_calls_app, ?storage_actions_app, ?Hc1; simpl;
        try done.
      by constructor; [left|]. }
  destruct (outcome m2 st3) as [[]|e2] eqn:Ho2.
  2:{ eexists. split; [reflexivity|]. split; [|done].
      intros e [|[_ [= <-]]]; [done|]. simpl.
      split_and!; subst prefix; simpl;
        rewrite ?registrar_calls_app, ?storage_actions_app, ?Hc1, ?Hc2;
        simpl; try done; try congruence.
      constructor; [by left|]. by apply Forall_app. }
  destruct (link_bootloaders_run env sp (store_after m2 st3))
    as (Hlink & _ & _).
  destruct (update_current_symlink_run env storage sp
              (store_after (link_bootloaders env sp) (store_after m2 st3)))
    as (Hsym & _ & _).
  set (trail := [Log INFO (Text ("Linking boot images snapshot " +:+ sp))]
                ++ events (link_bootloaders env sp) (store_after m2 st3)
                ++ events (update_current_symlink env storage sp)
                     (store_after (link_bootloaders env sp)
                        (store_after m2 st3))).
  assert (Symlink sp active ∈ trail
          ∧ (∀ before bm after e,
               BootMethodRegistry env = before ++ bm :: after →
               (link_bootloader bm sp
                  (store_after (for_each before (link_one sp))
                     (store_after m2 st3))).1 = Raise e →
               RackEvent RACK_IMPORT_ERROR
                 (Pair "Unable to link the %s bootloader." (bm_name bm))
               ∈ trail
               ∧ Log ERROR
                   (Pair "Unable to link the %s bootloader." (bm_name bm))
                 ∈ trail)
          ∧ (∀ bm, bm ∈ BootMethodRegistry env →
               (∀ st, ∃ e, (link_bootloader bm sp st).1 = Raise e) →
               RackEvent RACK_IMPORT_ERROR
                 (Pair "Unable to link the %s bootloader." (bm_name bm))
               ∈ trail
               ∧ Log ERROR
                   (Pair "Unable to link the %s bootloader." (bm_name bm))
                 ∈ trail)) as (Hin & Hrun & Hrep).
  { unfold trail. rewrite Hsym. split_and!.
    - rewrite !elem_of_app. do 2 right. by left.
    - intros before bm after e Hregistry Hraise.
      destruct (link_bootloaders_run_reports env sp (store_after m2 st3)
                  before bm after e Hregistry Hraise) as [Hevent Hline].
      rewrite !elem_of_app. tauto.
    - intros bm Hbm Hraises.
      destruct (link_bootloaders_always_reports env sp (store_after m2 st3)
                  bm Hbm Hraises) as [Hevent Hline].
      rewrite !elem_of_app. tauto. }
  clearbody trail.
  clear Hc1 Hw1 Hcur1 Hdom1 Hcache1 Hc2 Hw2 Hcur2 Hdom2 Hcache2 Ha1 Ha2
    Ho1 Ho2 Hsym.
  destruct (outcome (update_current_symlink env storage sp) _);
    [destruct (outcome (update_targets_conf env sp) _)|];
    (eexists; split; [reflexivity|]; split; [by intros ? [|[_ ?]]|]);
    intros _ _; (split; [done|]);
    (split_and!;
     [ rewrite !elem_of_app; tauto
     | intros before bm after err Hregistry Hraise;
       destruct (Hrun before bm after err Hregistry Hraise);
       rewrite !elem_of_app; tauto
     | intros bm Hbm Hraises; destruct (Hrep bm Hbm Hraises);
       rewrite !elem_of_app; tauto ]).
Qed.

(** C4, amended: in a run that reaches the staging phase the Registrar
    is invoked at most once, never against both Snapshots: once against
    the previous active Snapshot when the Downloader raises an
    [Exception], once against the new Snapshot, which the Current Pointer
    then names, when the run completes; and when the Downloader has
    returned, either once against the new Snapshot or, the run raising,
    not at all. *)
Theorem import_images_registrar_at_most_once :
  let download :=
    download_all_boot_resources env (prepared_sources env sources)
      storage (map_products env d) started in
  let run := import_images env sources w in
  ∃ evs,
    trace run.2 = trace w ++ evs
    ∧ Download storage ∈ evs
    ∧ length (registrar_calls evs) ≤ 1
    ∧ (∀ e, download.1 = Raise e →
         registrar_calls evs = if is_Exception e then [active] else [])
    ∧ (∀ sp, download.1 = Ok sp →
         registrar_calls evs = [sp]
         ∨ (registrar_calls evs = [] ∧ ∃ e, run.1 = Raise e))
    ∧ (∀ sp, download.1 = Ok sp → run.1 = Ok true →
         registrar_calls evs = [sp] ∧ current (store run.2) = Some sp).
Proof.
  intros download run. unfold run.
  destruct download as [[sp|e] st2] eqn:Hdownload; unfold download in *.
  - rewrite (import_images_download_returns sp st2) by done. cbv zeta.
    destruct (write_snapshot_metadata_run env sp (dump_json d) st2)
      as (Hc1 & _).
    set (m1 := write_snapshot_metadata env sp (dump_json d)) in *.
    set (st3 := store_after m1 st2).
    destruct (write_targets_conf_run env sp st3) as (Hc2 & _).
    set (m2 := write_targets_conf env sp) in *.
    set (st4 := store_after m2 st3).
    destruct (link_bootloaders_run env sp st4)
      as (_ & Hc3%loader_events_no_registrar & _).
    set (st5 := store_after (link_bootloaders env sp) st4) in *.
    destruct (update_current_symlink_run env storage sp st5)
      as (Hsym & Hcur & _).
    set (m4 := update_current_symlink env storage sp) in *.
    set (st6 := store_after m4 st5) in *.
    destruct (update_targets_conf_events env sp st6)
      as (after & Hev5 & Hc5 & _).
    assert (current (if decide (components storage = root st6)
                     then reap st6 else st6) = current st6) as Hreap
      by (by destruct (decide _)).
    destruct (outcome m1 st2) as [[]|e1];
      [destruct (outcome m2 st3) as [[]|e2];
       [destruct (outcome m4 st5) as [[]|e4];
        [destruct (outcome (update_targets_conf env sp) st6) as [[]|e5]|]|]|];
      (eexists; split; [reflexivity|]);
      subst prefix; simpl;
      rewrite ?registrar_calls_app, ?Hsym, ?Hev5; simpl;
      rewrite ?registrar_calls_app, ?Hc1, ?Hc2, ?Hc3, ?Hc5; simpl;
      (split_and!;
       [ set_solver
       | lia
       | by intros ? [=]
       | intros ? [= <-]; eauto
       | intros ? [= <-] [=]; try (split; [done|]; rewrite Hreap; auto) ]).
  - destruct (is_Exception e) eqn:Hexc.
    + rewrite (import_images_download_raises e st2) by done. cbv zeta.
      destruct (update_targets_conf_events env active st2)
        as (after & -> & Hcalls & _).
      destruct (outcome (update_targets_conf env active) st2);
        (eexists; split; [reflexivity|]);
        subst prefix; simpl;
        rewrite ?registrar_calls_app, ?Hcalls; simpl;
        (split_and!;
         [ set_solver | lia | intros ? [= <-]; by rewrite Hexc
         | by intros ? [=] | by intros ? [=] ]).
    + rewrite (import_images_download_interrupted e st2) by done.
      eexists; split; [reflexivity|].
      subst prefix. simpl.
      split_and!;
        [ set_solver | lia | intros ? [= <-]; by rewrite Hexc
        | by intros ? [=] | by intros ? [=] ].
Qed.

End Staging.

(** ** The rollback claims on concrete runs *)


(** C3 as the specification words it fails.  When the Metadata Record
    cannot be written the run raises, but the staging directory stays
    on disk, nothing is purged and the Registrar is not invoked; and
    when a loader cannot be linked nothing is aborted: the run completes
    and the Current Pointer names the new Snapshot. *)
Lemma commit_failure_rollback_counterexample :
  let failed := import_images Scenario.env_meta_fault Scenario.one_source
                  (Scenario.world Scenario.settled) in
  let linked := import_images Scenario.env_broken_loader Scenario.one_source
                  (Scenario.world Scenario.settled) in
  (failed.1 = Raise (OSError "No space left on device")
   ∧ dom (snapshots (store failed.2))
     = {[ "snapshot-1"; "snapshot-2" ]}
   ∧ registrar_calls (trace failed.2) = []
   ∧ storage_actions (trace failed.2)
     = [Download "/srv/boot"; WriteFile "/srv/boot/snapshot-2/maas.meta"])
  ∧ (linked.1 = Ok true
     ∧ current (store linked.2) = Some "/srv/boot/snapshot-2"
     ∧ RackEvent RACK_IMPORT_ERROR
         (Pair "Unable to link the %s bootloader." "pxe") ∈ trace linked.2).
Proof.
  intros failed linked. split_and!; try (vm_compute; reflexivity).
  apply (bool_decide_unpack _). vm_compute. exact I.
Qed.

(** C4 as the specification words it fails: a run that reaches the
    staging phase and then cannot write the Target Descriptor invokes
    the Registrar against neither Snapshot. *)
Lemma registrar_exactly_once_counterexample :
  let run := import_images Scenario.env_tgt_fault Scenario.one_source
               (Scenario.world Scenario.settled) in
  run.1 = Raise (OSError "No space left on device")
  ∧ storage_actions (trace run.2)
    = [Download "/srv/boot"; WriteFile "/srv/boot/snapshot-2/maas.meta";
       WriteFile "/srv/boot/snapshot-2/maas.tgt"]
  ∧ registrar_calls (trace run.2) = [].
Proof. vm_compute. done. Qed.



Lemma import_images_commit_failure_witness :
  let run := import_images Scenario.env_meta_fault Scenario.one_source
               (Scenario.world Scenario.settled) in
  let linked := import_images Scenario.env_broken_loader Scenario.one_source
                  (Scenario.world Scenario.settled) in
  (run.1 = Raise (OSError "No space left on device")
   ∧ registrar_calls (trace run.2) = []
   ∧ current (store run.2) = Some "/srv/boot/snapshot-1"
   ∧ "snapshot-2" ∈ dom (snapshots (store run.2)))
  ∧ (RackEvent RACK_IMPORT_ERROR
       (Pair "Unable to link the %s bootloader." "pxe") ∈ trace linked.2
     ∧ Log ERROR (Pair "Unable to link the %s bootloader." "pxe")
       ∈ trace linked.2).
Proof.
  intros run linked. split.
  - destruct (import_images_commit_failure Scenario.env_meta_fault
                Scenario.one_source Scenario.catalog_B
                (Scenario.world Scenario.settled))
      with (sp := "/srv/boot/snapshot-2")
           (st2 := Scenario.add_snapshot "snapshot-2"
                     Scenario.snapshot_partial
                     (touch Scenario.settled (current_meta "/srv/boot") 200))
      as (evs & Htrace & Hfailure & _).
    + done.
    + reflexivity.
    + reflexivity.
    + vm_compute. reflexivity.
    + reflexivity.
    + destruct (Hfailure (OSError "No space left on device"))
        as (Hraise & Hcalls & _ & Hcur & Hdom & _).
      { left. vm_compute. reflexivity. }
      fold run in Htrace, Hraise, Hcur, Hdom.
      rewrite Htrace, Hcur, Hdom. simpl. split_and!; [done..|].
      rewrite dom_insert_L. apply elem_of_union_l. by apply elem_of_singleton.
  - destruct (import_images_commit_failure Scenario.env_broken_loader
                Scenario.one_source Scenario.catalog_B
                (Scenario.world Scenario.settled))
      with (sp := "/srv/boot/snapshot-2")
           (st2 := Scenario.add_snapshot "snapshot-2"
                     Scenario.snapshot_partial
                     (touch Scenario.settled (current_meta "/srv/boot") 200))
      as (evs & Htrace & _ & Hloaders).
    + done.
    + reflexivity.
    + reflexivity.
    + vm_compute. reflexivity.
    + reflexivity.
    + destruct Hloaders as (_ & _ & Hreported & _);
        [vm_compute; reflexivity..|].
      destruct (Hreported [] Scenario.broken_loader []
                  (OSError "pxelinux.0 not found"))
        as [Hevent Hline]; [reflexivity..|].
      fold linked in Htrace. rewrite Htrace.
      split; [exact Hevent|exact Hline].
Defined.

Lemma import_images_registrar_at_most_once_witness :
  let run := import_images Scenario.env_download_fails Scenario.one_source
               (Scenario.world Scenario.settled) in
  length (registrar_calls (trace run.2)) ≤ 1
  ∧ registrar_calls (trace run.2) = ["/srv/boot/current"].
Proof.
  intros run.
  destruct (import_images_registrar_at_most_once Scenario.env_download_fails
              Scenario.one_source Scenario.catalog_B
              (Scenario.world Scenario.settled))
    as (evs & Htrace & _ & Hlength & Hraise & _).
  - done.
  - reflexivity.
  - reflexivity.
  - vm_compute. reflexivity.
  - fold run in Htrace. rewrite Htrace. simpl. split; [done|].
    apply (Hraise (OSError "connection reset")). reflexivity.
Defined.

(** ** More on the Change Detector *)

Lemma stat_touch_self st p now content mtime :
  stat st p = Some (File content mtime) →
  stat (touch st p now) p = Some (File content now).
Proof.
  intros Hstat. unfold touch. rewrite Hstat.
  unfold stat in *. destruct (locate st p) as [[snap rel]|] eqn:Hp; [|done].
  simpl in *. destruct (snapshots st !! snap) as [s|] eqn:Hs; [|done].
  simpl in *. destruct rel as [|x rel]; [done|].
  rewrite locate_set_entry, Hp. simpl.
  rewrite lookup_alter, decide_True by done. rewrite Hs. simpl.
  by rewrite lookup_insert_eq.
Qed.

(** X3: whatever its answer, [meta_contains] stamps the Metadata Record
    of the active Snapshot, when there is one, with the time of the run,
    and changes nothing else: every file keeps its text, every path
    exists as before, the Current Pointer, the set of Snapshots and the
    Cache are as they were, and nothing is logged; without such a record
    the StorageRoot is left as it was. *)
Theorem meta_contains_touches env storage content w :
  let record := current_meta storage in
  let w' := (meta_contains env storage content w).2 in
  trace w' = trace w
  ∧ (∀ text mtime, stat (store w) record = Some (File text mtime) →
       stat (store w') record = Some (File text (clock env)))
  ∧ (∀ p, file_text (store w') p = file_text (store w) p)
  ∧ (∀ p, path_exists (store w') p = path_exists (store w) p)
  ∧ current (store w') = current (store w)
  ∧ dom (snapshots (store w')) = dom (snapshots (store w))
  ∧ cache (store w') = cache (store w)
  ∧ (isfile (store w) record = false → store w' = store w).
Proof.
  intros record w'. unfold w'.
  rewrite (parametric_meta_contains env storage content w). simpl.
  destruct (meta_contains_run env storage content (store w))
    as (_ & -> & ->).
  fold record.
  destruct (touch_frame (store w) record (clock env)) as (_ & ? & ? & ?).
  split_and!; try done.
  - by rewrite app_nil_r.
  - intros text mtime. apply stat_touch_self.
  - intros p. apply file_text_touch.
  - intros p. apply path_exists_touch.
  - apply touch_not_file.
Qed.

(** ** More on the Registrar *)

(** X7: when the wait for the tgt service raises, [update_targets_conf]
    raises the same exception at once: the presence of the Target
    Descriptor is not looked at, no command is run, and no warning is
    sent. *)
Theorem update_targets_conf_wait_failure env snapshot e w :
  ensure_service_wait env "tgt" 30 = Raise e →
  update_targets_conf env snapshot w =
  (Raise e, {| store := store w;
               trace := trace w ++ [UpdateTargets snapshot;
                                    EnsureService "tgt" 30] |}).
Proof.
  intros Hwait. unfold update_targets_conf. run_steps.
  rewrite Hwait. simpl. by rewrite <- app_assoc.
Qed.

(** X8: an exception of the reload command that is no
    [ExternalProcessError] is not turned into a warning: it is raised to
    the caller of [update_targets_conf], with no event sent. *)
Theorem update_targets_conf_foreign_exception env snapshot e w :
  ensure_service_wait env "tgt" 30 = Ok tt →
  path_exists (store w) (path_join snapshot ["maas.tgt"]) = true →
  call_and_check env (reload_command env snapshot) = Raise e →
  is_ExternalProcessError e = false →
  update_targets_conf env snapshot w =
  (Raise e, {| store := store w;
               trace := trace w ++ [UpdateTargets snapshot;
                                    EnsureService "tgt" 30;
                                    RunCommand (reload_command env snapshot)]
            |}).
Proof.
  intros Hwait Hpresent Hreload Hforeign.
  unfold update_targets_conf. run_steps.
  rewrite Hwait. simpl. rewrite Hpresent. simpl.
  fold (reload_command env snapshot). rewrite Hreload. simpl.
  rewrite Hforeign. by norm_trace.
Qed.

(** ** Writing a file and reading it back *)

Lemma stat_set_entry st snap rel n q :
  rel ≠ [] → is_Some (snapshots st !! snap) →
  stat (set_entry st snap rel n) q =
  if decide (locate st q = Some (snap, rel)) then Some n else stat st q.
Proof.
  intros Hrel [s Hs]. unfold stat. rewrite locate_set_entry.
  destruct (decide (locate st q = Some (snap, rel))) as [->|Hne].
  - simpl. rewrite lookup_alter, decide_True by done. rewrite Hs. simpl.
    destruct rel; [done|]. by rewrite lookup_insert_eq.
  - destruct (locate st q) as [[snap' rel']|]; simpl; [|done].
    rewrite lookup_alter. destruct (decide (snap = snap')) as [<-|]; [|done].
    rewrite Hs. simpl. destruct rel' as [|x rel']; [done|].
    rewrite lookup_insert_ne; [done|congruence].
Qed.

Lemma stat_put_file st p content now st' q :
  put_file st p content now = Some st' →
  stat st' q =
  if decide (locate st q = locate st p) then Some (File content now)
  else stat st q.
Proof.
  unfold put_file. destruct (locate st p) as [[snap rel]|] eqn:Hp; [|done].
  simpl. destruct (snapshots st !! snap) as [s|] eqn:Hs; [|done]. simpl.
  destruct rel as [|x rel]; [done|].
  destruct (stat st p) as [[]|]; intros [= <-];
    by apply stat_set_entry.
Qed.

Lemma locate_put_file st p content now st' q :
  put_file st p content now = Some st' → locate st' q = locate st q.
Proof.
  unfold put_file. destruct (locate st p) as [[snap rel]|]; [|done].
  simpl. destruct (snapshots st !! snap); [|done]. simpl.
  destruct rel; [done|]. by destruct (stat st p) as [[]|]; intros [= <-].
Qed.

(** What a write that returns has done. *)
Lemma atomic_write_returns env content filename st :
  outcome (atomic_write env content filename) st = Ok tt →
  put_file st filename content (clock env)
    = Some (store_after (atomic_write env content filename) st).
Proof.
  unfold outcome, store_after, atomic_write, fresh. run_steps.
  destruct (write_fault env filename); simpl; [done|].
  by destruct (put_file st filename content (clock env)).
Qed.

Lemma write_snapshot_metadata_returns env snapshot content st :
  outcome (write_snapshot_metadata env snapshot content) st = Ok tt →
  is_ascii content = true
  ∧ put_file st (path_join snapshot ["maas.meta"]) content (clock env)
    = Some (store_after (write_snapshot_metadata env snapshot content) st).
Proof.
  unfold write_snapshot_metadata. destruct (is_ascii content); [|done].
  intros H. split; [done|]. by apply atomic_write_returns.
Qed.

Lemma write_targets_conf_returns env snapshot st :
  outcome (write_targets_conf env snapshot) st = Ok tt →
  put_file st (path_join snapshot ["maas.tgt"])
    (str_join (tgt_entries_of st snapshot (list_boot_images env snapshot st)))
    (clock env)
  = Some (store_after (write_targets_conf env snapshot) st).
Proof.
  unfold write_targets_conf, outcome, store_after, fresh.
  unfold mbind, M_bind. rewrite compose_targets_conf_run. simpl.
  apply atomic_write_returns.
Qed.

(** X4: the Metadata Record is encoded before anything is written: a
    content with a character outside ASCII makes [write_snapshot_metadata]
    raise [UnicodeEncodeError] with the StorageRoot and the trace as they
    were, no write being attempted. *)
Theorem write_snapshot_metadata_not_ascii env snapshot content w :
  is_ascii content = false →
  write_snapshot_metadata env snapshot content w =
  (Raise (OtherException "UnicodeEncodeError" content), w).
Proof.
  intros Hascii. unfold write_snapshot_metadata. rewrite Hascii.
  unfold raise. reflexivity.
Qed.

(** X5: when [write_snapshot_metadata] returns, the file [maas.meta] of
    the snapshot directory is a regular file whose text is the content
    given, stamped with the time of the write; the content is ASCII; one
    write has been made; and every path that leads elsewhere leads to
    what it led to. *)
Theorem write_snapshot_metadata_round_trip env snapshot content w :
  (write_snapshot_metadata env snapshot content w).1 = Ok tt →
  let run := write_snapshot_metadata env snapshot content w in
  let record := path_join snapshot ["maas.meta"] in
  stat (store run.2) record = Some (File content (clock env))
  ∧ file_text (store run.2) record = Some content
  ∧ is_ascii content = true
  ∧ trace run.2 = trace w ++ [WriteFile record]
  ∧ ∀ q, locate (store w) q ≠ locate (store w) record →
      stat (store run.2) q = stat (store w) q.
Proof.
  intros Hok run record. unfold run in *.
  rewrite (parametric_write_snapshot_metadata env snapshot content w) in *.
  simpl in *.
  destruct (write_snapshot_metadata_returns env snapshot content (store w) Hok)
    as [Hascii Hput].
  fold record in Hput.
  pose proof (stat_put_file _ _ _ _ _ record Hput) as Hself.
  rewrite decide_True in Hself by done.
  split_and!; try done.
  - unfold file_text. by rewrite Hself.
  - unfold write_snapshot_metadata. rewrite Hascii. cbv iota zeta.
    fold record.
    by destruct (atomic_write_run env content record (store w)) as (-> & _).
  - intros q Hq. rewrite (stat_put_file _ _ _ _ _ q Hput).
    by rewrite decide_False.
Qed.

(** X6: the Target Descriptor that [write_targets_conf] leaves is the
    text [compose_targets_conf] gives for the snapshot as it was before
    the write, and the Registrar, run next against the same snapshot
    with the tgt service up, does not take the descriptor for missing:
    it runs the reload command. *)
Theorem write_targets_conf_then_update env snapshot w :
  (write_targets_conf env snapshot w).1 = Ok tt →
  ensure_service_wait env "tgt" 30 = Ok tt →
  let written := (write_targets_conf env snapshot w).2 in
  file_text (store written) (path_join snapshot ["maas.tgt"])
    = Some (str_join (tgt_entries_of (store w) snapshot
                        (list_boot_images env snapshot (store w))))
  ∧ RunCommand (reload_command env snapshot)
    ∈ trace (update_targets_conf env snapshot written).2.
Proof.
  intros Hok Hwait written. unfold written in *.
  rewrite (parametric_write_targets_conf env snapshot w) in *.
  simpl in *.
  pose proof (write_targets_conf_returns env snapshot (store w) Hok) as Hput.
  pose proof (stat_put_file _ _ _ _ _ (path_join snapshot ["maas.tgt"]) Hput)
    as Hself.
  rewrite decide_True in Hself by done.
  split.
  - unfold file_text. by rewrite Hself.
  - unfold update_targets_conf. run_steps. rewrite Hwait. simpl.
    unfold path_exists. rewrite Hself. simpl.
    fold (reload_command env snapshot).
    destruct (call_and_check env (reload_command env snapshot)) as [|e];
      simpl; [|destruct (is_ExternalProcessError e); simpl];
      rewrite !elem_of_app; set_solver.
Qed.

(** Go through the members of a list given in full. *)
Ltac elem_of_cases H :=
  repeat (apply elem_of_cons in H as [H|H]; [try discriminate H|]);
  try (by apply elem_of_nil in H).

(** ** More on linking the loaders *)

Lemma loader_attempts_app evs1 evs2 :
  loader_attempts (evs1 ++ evs2) = loader_attempts evs1 ++ loader_attempts evs2.
Proof. apply omap_app. Qed.

Lemma loader_failures_app evs1 evs2 :
  loader_failures (evs1 ++ evs2) = loader_failures evs1 ++ loader_failures evs2.
Proof. apply omap_app. Qed.

Lemma link_bootloaders_attempts_loop destination (l : list BootMethod) w :
  ∃ st' evs,
    for_each l (link_one destination) w
    = (Ok tt, {| store := st'; trace := trace w ++ evs |})
    ∧ loader_attempts evs = bm_name <$> l
    ∧ storage_actions evs
      = (λ bm, LinkBootloader (bm_name bm) destination) <$> l
    ∧ loader_failures evs `sublist_of` bm_name <$> l
    ∧ ((∀ bm st, bm ∈ l →
          ∃ a, (link_bootloader bm destination st).1 = Ok a) →
       evs = (λ bm, LinkBootloader (bm_name bm) destination) <$> l)
    ∧ ((∀ bm st, bm ∈ l →
          ∃ e, (link_bootloader bm destination st).1 = Raise e) →
       loader_failures evs = bm_name <$> l).
Proof.
  revert w. induction l as [|bm l IH]; intros w.
  - exists (store w), []. simpl. rewrite app_nil_r, world_eta.
    by split_and!.
  - simpl. unfold mbind, M_bind. rewrite link_one_run.
    destruct (link_bootloader bm destination (store w)) as [[a|e] st1] eqn:Hl.
    + destruct (IH {| store := st1;
                      trace := trace w ++
                        [LinkBootloader (bm_name bm) destination] |})
        as (st' & evs & -> & Hatt & Hact & Hfail & Hnone & Hevery). simpl.
      exists st', (LinkBootloader (bm_name bm) destination :: evs).
      split_and!.
      * by rewrite <- app_assoc.
      * simpl. by rewrite Hatt.
      * simpl. by rewrite Hact.
      * simpl. by apply sublist_cons.
      * intros Hok. rewrite Hnone; [done|].
        intros bm' st Hin. apply Hok. by right.
      * intros Hraise. destruct (Hraise bm (store w)) as [e He]; [by left|].
        by rewrite Hl in He.
    + destruct (IH {| store := st1;
                      trace := trace w ++
                        [LinkBootloader (bm_name bm) destination;
                         RackEvent RACK_IMPORT_ERROR
                           (Pair "Unable to link the %s bootloader."
                                 (bm_name bm));
                         Log ERROR
                           (Pair "Unable to link the %s bootloader."
                                 (bm_name bm))] |})
        as (st' & evs & -> & Hatt & Hact & Hfail & Hnone & Hevery). simpl.
      exists st', (LinkBootloader (bm_name bm) destination
                   :: RackEvent RACK_IMPORT_ERROR
                        (Pair "Unable to link the %s bootloader." (bm_name bm))
                   :: Log ERROR
                        (Pair "Unable to link the %s bootloader." (bm_name bm))
                   :: evs).
      split_and!.
      * by rewrite <- app_assoc.
      * simpl. by rewrite Hatt.
      * simpl. by rewrite Hact.
      * simpl. by apply sublist_skip.
      * intros Hok. destruct (Hok bm (store w)) as [a Ha]; [by left|].
        by rewrite Hl in Ha.
      * intros Hraise. simpl. rewrite Hevery; [done|].
        intros bm' st Hin. apply Hraise. by right.
Qed.


(** ** More runs of the orchestrator *)

(** X9: no handler stands around the fetch of the catalog: what
    [download_all_image_descriptions] raises is raised by
    [import_images] at once, after the two opening messages; no error
    is sent, the Registrar is not run, nothing is cleaned up, and the
    StorageRoot is as it was. *)
Theorem import_images_catalog_failure env sources e w :
  sources ≠ [] →
  download_all_image_descriptions env (prepared_sources env sources)
    = Raise e →
  import_images env sources w =
  (Raise e,
   {| store := store w;
      trace := trace w ++
        [Log INFO (Text "Starting rack boot image import");
         RackEvent RACK_IMPORT_INFO (Text "Starting rack boot image import");
         FetchDescriptions] |}).
Proof.
  intros Hsources Hcatalog.
  unfold import_images. rewrite decide_False by (by destruct sources).
  run_steps. fold (prepared_sources env sources).
  rewrite Hcatalog. simpl. by norm_trace.
Qed.

(** X10: with an empty catalog the run touches nothing of the
    StorageRoot, not even the time of the stored Metadata Record (the
    Change Detector is not consulted), calls neither the Downloader nor
    the Committer nor the Reaper, and, the Registrar having returned,
    ends with a warning to the region and returns [False]; what the
    Registrar raises is raised to the caller, no warning being sent. *)
Theorem import_images_empty_catalog env sources d w :
  sources ≠ [] →
  download_all_image_descriptions env (prepared_sources env sources) = Ok d →
  is_empty d = true →
  let active := path_join (tftp_root_parent env) ["current"] in
  let run := import_images env sources w in
  let finished :=
    Text ("Finished importing boot images, the region does not have "
          +:+ "any boot images available.") in
  store run.2 = store w
  ∧ ∃ evs,
      trace run.2 = trace w ++ evs
      ∧ storage_actions evs = []
      ∧ match outcome (update_targets_conf env active) (store w) with
        | Ok _ =>
            run.1 = Ok false
            ∧ ∃ evs', evs = evs' ++ [RackEvent RACK_IMPORT_WARNING finished;
                                     Log WARNING finished]
        | Raise e =>
            run.1 = Raise e
            ∧ RackEvent RACK_IMPORT_WARNING finished ∉ evs
        end.
Proof.
  intros Hsources Hcatalog Hempty active run finished.
  unfold run, import_images. rewrite decide_False by (by destruct sources).
  run_steps. fold (prepared_sources env sources).
  rewrite Hcatalog. simpl. rewrite Hempty. fold active.
  rewrite (parametric_update_iscsi_targets env _ {| store := _ |}).
  simpl.
  destruct (update_iscsi_targets_run env active (store w))
    as (-> & -> & ->).
  destruct (update_targets_conf_events env active (store w))
    as (evs & Hevs & _ & Hactions).
  assert (RackEvent RACK_IMPORT_WARNING finished
          ∉ events (update_targets_conf env active) (store w)
          ∨ ∃ a, outcome (update_targets_conf env active) (store w) = Ok a)
    as Hwarn.
  { unfold events, outcome, update_targets_conf, fresh. run_steps.
    destruct (ensure_service_wait env "tgt" 30); simpl;
      [|left; intros Hin; elem_of_cases Hin].
    destruct (path_exists _ _); simpl; [|by right; eexists].
    destruct (call_and_check env _) as [|e']; simpl; [by right; eexists|].
    destruct (is_ExternalProcessError e'); simpl; [by right; eexists|].
    left. intros Hin. elem_of_cases Hin. }
  rewrite Hevs in *.
  destruct (outcome (update_targets_conf env active) (store w)) as [a|e];
    simpl; (split; [done|]); eexists;
    (split; [norm_trace; reflexivity|]);
    unfold storage_actions in *; simpl;
    rewrite ?List.filter_app, ?Hactions; simpl;
    (split; [done|]); (split; [done|]).
  - eexists (_ :: _ :: _ :: _ :: UpdateTargets active :: evs).
    reflexivity.
  - destruct Hwarn as [Hwarn|[? ?]]; [|done].
    intros Hin. apply Hwarn.
    repeat (apply elem_of_cons in Hin as [Hin|Hin]; [discriminate Hin|]).
    by right.
Qed.

(** X13: when the Downloader fails and the Registrar, applied to the
    previously active Snapshot by the handler, raises too, it is the
    exception of the Registrar that [import_images] raises, not the one
    of the Downloader; the error of the download has been sent, but
    the Reaper is not called and its log line is not written: the
    StorageRoot is as the Downloader left it, the partial snapshot
    included. *)
Theorem import_images_failure_report_fails env sources d w e e' st2 :
  sources ≠ [] →
  download_all_image_descriptions env (prepared_sources env sources) = Ok d →
  is_empty d = false →
  (meta_contains env (tftp_root_parent env) (dump_json d) w).1 = Ok false →
  download_all_boot_resources env (prepared_sources env sources)
    (tftp_root_parent env) (map_products env d)
    (touch (store w) (current_meta (tftp_root_parent env)) (clock env))
    = (Raise e, st2) →
  is_Exception e = true →
  outcome (update_targets_conf env
             (path_join (tftp_root_parent env) ["current"])) st2
    = Raise e' →
  let run := import_images env sources w in
  run.1 = Raise e'
  ∧ store run.2 = st2
  ∧ ∃ evs,
      trace run.2 = trace w ++ evs
      ∧ RackEvent RACK_IMPORT_ERROR
          (Text ("Unable to import boot images: " +:+ exn_text e)) ∈ evs
      ∧ registrar_calls evs = [path_join (tftp_root_parent env) ["current"]]
      ∧ storage_actions evs = [Download (tftp_root_parent env)].
Proof.
  intros Hsources Hcatalog Hnonempty Hchanged Hdownload Hexception Hraises
    run.
  unfold run.
  rewrite (import_images_download_raises env sources d w Hsources Hcatalog
             Hnonempty Hchanged e st2 Hdownload Hexception).
  cbv zeta. rewrite Hraises.
  destruct (update_targets_conf_events env
              (path_join (tftp_root_parent env) ["current"]) st2)
    as (evs & -> & Hcalls & Hactions).
  split_and!; [done..|]. eexists. split; [reflexivity|].
  split_and!.
  - rewrite !elem_of_app. right. left. by left.
  - simpl. by rewrite Hcalls.
  - unfold storage_actions in *. simpl. by rewrite Hactions.
Qed.

(** X12: what the Downloader raises that is no [Exception] (an
    interrupt, an exit) passes the handler by: [import_images] raises it
    with no error sent, the Registrar not run and the Reaper not
    called, so that what the Downloader had staged stays. *)
Theorem import_images_download_interrupt env sources d w e st2 :
  sources ≠ [] →
  download_all_image_descriptions env (prepared_sources env sources) = Ok d →
  is_empty d = false →
  (meta_contains env (tftp_root_parent env) (dump_json d) w).1 = Ok false →
  download_all_boot_resources env (prepared_sources env sources)
    (tftp_root_parent env) (map_products env d)
    (touch (store w) (current_meta (tftp_root_parent env)) (clock env))
    = (Raise e, st2) →
  is_Exception e = false →
  let run := import_images env sources w in
  run.1 = Raise e
  ∧ store run.2 = st2
  ∧ ∃ evs,
      trace run.2 = trace w ++ evs
      ∧ registrar_calls evs = []
      ∧ storage_actions evs = [Download (tftp_root_parent env)]
      ∧ Forall (λ ev, ∀ m, ev ≠ RackEvent RACK_IMPORT_ERROR m
                           ∧ ev ≠ Log ERROR m) evs.
Proof.
  intros Hsources Hcatalog Hnonempty Hchanged Hdownload Hexception run.
  unfold run.
  rewrite (import_images_download_interrupted env sources d w Hsources
             Hcatalog Hnonempty Hchanged e st2 Hdownload Hexception).
  split_and!; [done..|]. eexists. split; [reflexivity|].
  split_and!; [done..|]. repeat constructor; done.
Qed.

(** ** A completed import is recognised *)

Lemma components_control_file sp name :
  starts_with_slash name = false → components name = [name] →
  components (path_join sp [name]) = components sp ++ [name].
Proof. intros Hs Hc. unfold path_join. simpl. by apply components_join1_name. Qed.

(** A path below a snapshot directory other than [current] leads into
    that directory. *)
Lemma locate_below st p name rel :
  components p = root st ++ name :: rel → name ≠ "current" →
  locate st p = Some (name, rel).
Proof.
  intros Hp Hname. unfold locate. rewrite Hp, drop_prefix_app.
  by rewrite decide_False.
Qed.

Lemma link_bootloaders_keeps p destination (l : list BootMethod) w :
  (∀ bm st, bm ∈ l →
     keeps_record p st (link_bootloader bm destination st).2) →
  keeps_record p (store w) (store (for_each l (link_one destination) w).2).
Proof.
  revert w. induction l as [|bm l IH]; intros w Hkeeps; [done|].
  simpl. unfold mbind, M_bind. rewrite link_one_run.
  destruct (Hkeeps bm (store w)) as [Hroot Htext]; [by left|].
  destruct (link_bootloader bm destination (store w)) as [[a|e] st1];
    simpl in *;
    match goal with
    | |- context [for_each l _ ?w1] =>
        destruct (IH w1) as [Hroot' Htext'];
          [intros bm' st Hin; apply Hkeeps; by right|];
        destruct (for_each l (link_one destination) w1) as [[[]|?] w2];
          simpl in *; split; congruence
    end.
Qed.

(** The Reaper leaves every path into the active Snapshot as it is. *)
Lemma stat_reap st p name rel :
  locate st p = Some (name, rel) → active_snapshot st = Some name →
  stat (reap st) p = stat st p.
Proof.
  intros Hp Hactive.
  assert (locate (reap st) p = locate st p) as Hlocate by reflexivity.
  assert (snapshots (reap st) !! name = snapshots st !! name) as Hsnap.
  { destruct (reap_spec st) as (_ & _ & Hsnap & _).
    apply option_eq. intros s. rewrite Hsnap.
    split; [by intros [? _]|by intros ?]. }
  revert Hlocate Hsnap. generalize (reap st). intros st' Hlocate Hsnap.
  unfold stat. rewrite Hlocate, Hp. simpl. by rewrite Hsnap.
Qed.

(** What a repointing that returns has done. *)
Lemma update_current_symlink_returns env storage latest st :
  outcome (update_current_symlink env storage latest) st = Ok tt →
  components storage = root st
  ∧ store_after (update_current_symlink env storage latest) st
    = {| root := root st; current := Some latest;
         snapshots := snapshots st; cache := cache st |}.
Proof.
  unfold outcome, store_after, update_current_symlink, atomic_symlink, fresh.
  run_steps.
  destruct (write_fault env _); [intros [=]|].
  destruct (decide _) as [Hc|]; [|intros [=]]. intros _. split; [|done].
  rewrite components_control_file in Hc by done.
  by apply app_inv_tail in Hc.
Qed.

(** ** The order of the commit *)

Section Commitment.
Context (env : Env) (sources : list Source) (d : ImageDescriptions).
Context (w : World) (sp : string) (st2 : StorageRoot).
Hypothesis Hsources : sources ≠ [].
Hypothesis Hcatalog :
  download_all_image_descriptions env (prepared_sources env sources) = Ok d.
Hypothesis Hnonempty : is_empty d = false.
Hypothesis Hchanged :
  (meta_contains env (tftp_root_parent env) (dump_json d) w).1 = Ok false.
Hypothesis Hdownload :
  download_all_boot_resources env (prepared_sources env sources)
    (tftp_root_parent env) (map_products env d)
    (touch (store w) (current_meta (tftp_root_parent env)) (clock env))
  = (Ok sp, st2).

Let storage : string := tftp_root_parent env.
Let active : string := path_join storage ["current"].
Let st3 : StorageRoot :=
  store_after (write_snapshot_metadata env sp (dump_json d)) st2.
Let st4 : StorageRoot := store_after (write_targets_conf env sp) st3.
Let st5 : StorageRoot := store_after (link_bootloaders env sp) st4.
Let st6 : StorageRoot :=
  store_after (update_current_symlink env storage sp) st5.

(** The storage actions of the commit up to the linking of the loaders. *)
Let staged : list Event :=
  [Download storage;
   WriteFile (path_join sp ["maas.meta"]);
   WriteFile (path_join sp ["maas.tgt"])]
  ++ ((λ bm, LinkBootloader (bm_name bm) sp) <$> BootMethodRegistry env).

Lemma write_snapshot_metadata_events content st :
  outcome (write_snapshot_metadata env sp content) st = Ok tt →
  events (write_snapshot_metadata env sp content) st
    = [WriteFile (path_join sp ["maas.meta"])].
Proof.
  unfold write_snapshot_metadata. destruct (is_ascii content); [|done].
  intros _. by destruct (atomic_write_run env content
                           (path_join sp ["maas.meta"]) st) as (-> & _).
Qed.

Lemma write_targets_conf_events st :
  events (write_targets_conf env sp) st
    = [WriteFile (path_join sp ["maas.tgt"])].
Proof.
  unfold write_targets_conf, events, fresh.
  unfold mbind, M_bind. rewrite compose_targets_conf_run. simpl.
  apply (atomic_write_run env _ (path_join sp ["maas.tgt"]) st).
Qed.

Lemma link_bootloaders_events st :
  registrar_calls (events (link_bootloaders env sp) st) = []
  ∧ storage_actions (events (link_bootloaders env sp) st)
    = (λ bm, LinkBootloader (bm_name bm) sp) <$> BootMethodRegistry env
  ∧ Forall (λ ev, ∀ p q, ev ≠ Symlink p q ∧ ev ≠ Cleanup p
                         ∧ ev ≠ UpdateTargets p)
      (events (link_bootloaders env sp) st).
Proof.
  destruct (link_bootloaders_run env sp st) as (_ & Hall & _).
  split; [by apply loader_events_no_registrar|].
  split.
  - unfold events, link_bootloaders.
    destruct (link_bootloaders_attempts_loop sp (BootMethodRegistry env)
                (fresh st)) as (st' & evs & -> & _ & Hact & _).
    done.
  - revert Hall. generalize (events (link_bootloaders env sp) st).
    induction l as [|ev l IH]; simpl; [by constructor|].
    intros [Hev Hl]%andb_prop. constructor; [|by apply IH].
    intros p q. by destruct ev.
Qed.

(** X14: the run returns [True] exactly when the four steps of the
    commit that can fail have all returned; then its actions on the
    StorageRoot are, in this order: the download, the write of the
    Metadata Record, the write of the Target Descriptor, the linking of
    each loader of the registry, the repointing of the Current Pointer
    and the call to the Reaper; the Registrar is invoked once, against
    the new Snapshot, after the repointing and before the Reaper; and
    the Current Pointer names the new Snapshot. *)
Theorem import_images_commit_order :
  let run := import_images env sources w in
  (run.1 = Ok true ↔
     outcome (write_snapshot_metadata env sp (dump_json d)) st2 = Ok tt
     ∧ outcome (write_targets_conf env sp) st3 = Ok tt
     ∧ outcome (update_current_symlink env storage sp) st5 = Ok tt
     ∧ outcome (update_targets_conf env sp) st6 = Ok tt)
  ∧ (run.1 = Ok true →
     current (store run.2) = Some sp
     ∧ ∃ before between after,
         trace run.2 = trace w ++ before ++ Symlink sp active :: between
                         ++ UpdateTargets sp :: after
         ∧ storage_actions before = staged
         ∧ registrar_calls before = []
         ∧ storage_actions between = []
         ∧ registrar_calls between = []
         ∧ storage_actions after = [Cleanup storage]
         ∧ registrar_calls after = []).
Proof.
  intros run. unfold run.
  rewrite (import_images_download_returns env sources d w Hsources Hcatalog
             Hnonempty Hchanged sp st2 Hdownload).
  cbv zeta.
  fold storage active st3 st4 st5 st6.
  pose proof (write_snapshot_metadata_events (dump_json d) st2) as Hev1.
  pose proof (write_targets_conf_events st3) as Hev2.
  destruct (link_bootloaders_events st4) as (Hcalls3 & Hact3 & _).
  fold st5 in Hcalls3, Hact3.
  destruct (update_current_symlink_run env storage sp st5)
    as (Hsym & Hcur & _).
  fold st6 active in Hsym, Hcur.
  destruct (update_targets_conf_events env sp st6)
    as (evs & Hevs & Hcalls5 & Hact5).
  destruct (cleanup_run storage st6) as (_ & _ & Hreap).
  destruct (outcome (write_snapshot_metadata env sp (dump_json d)) st2)
    as [[]|e1]; simpl.
  2:{ split; [split; [intros [=]|intros (H & _); discriminate H]|intros [=]]. }
  destruct (outcome (write_targets_conf env sp) st3) as [[]|e2]; simpl.
  2:{ split; [split; [intros [=]|intros (_ & H & _); discriminate H]
             |intros [=]]. }
  destruct (outcome (update_current_symlink env storage sp) st5)
    as [[]|e4]; simpl.
  2:{ split; [split; [intros [=]|intros (_ & _ & H & _); discriminate H]
             |intros [=]]. }
  destruct (outcome (update_targets_conf env sp) st6) as [[]|e5]; simpl.
  2:{ split; [split; [intros [=]|intros (_ & _ & _ & H); discriminate H]
             |intros [=]]. }
  split; [done|]. intros _. split.
  - destruct (reap_spec st6) as (_ & Hc & _).
    destruct (decide _); [rewrite Hc|]; by apply Hcur.
  - rewrite Hev1, Hev2, Hsym, Hevs by done.
    exists ([Log INFO (Text "Starting rack boot image import");
             RackEvent RACK_IMPORT_INFO
               (Text "Starting rack boot image import");
             FetchDescriptions; Download storage;
             Log INFO (Text "Writing boot image metadata and iSCSI targets.");
             WriteFile (path_join sp ["maas.meta"]);
             WriteFile (path_join sp ["maas.tgt"]);
             Log INFO (Text ("Linking boot images snapshot " +:+ sp))]
            ++ events (link_bootloaders env sp) st4),
           [Log INFO (Text "Updating boot image iSCSI targets.")],
           (evs ++ [Log INFO (Text "Cleaning up old snapshots and cache.");
                    Cleanup storage;
                    Log INFO (Text "Finished importing boot images.");
                    RackEvent RACK_IMPORT_INFO
                      (Text "Finished importing boot images.")]).
    split; [by norm_trace|].
    unfold staged, storage_actions in *.
    rewrite ?List.filter_app, ?registrar_calls_app. simpl.
    rewrite ?List.filter_app, ?registrar_calls_app, ?Hact3, ?Hcalls3,
      ?Hact5, ?Hcalls5. simpl.
    split_and!; try done.
Qed.
(** What the run has left in the trace when the Current Pointer has
    been repointed, or the attempt made. *)
Let linked : list Event :=
  [Log INFO (Text "Starting rack boot image import");
   RackEvent RACK_IMPORT_INFO (Text "Starting rack boot image import");
   FetchDescriptions; Download storage;
   Log INFO (Text "Writing boot image metadata and iSCSI targets.");
   WriteFile (path_join sp ["maas.meta"]);
   WriteFile (path_join sp ["maas.tgt"]);
   Log INFO (Text ("Linking boot images snapshot " +:+ sp))]
  ++ events (link_bootloaders env sp) st4 ++ [Symlink sp active].

Lemma import_images_linked :
  registrar_calls linked = []
  ∧ storage_actions linked = staged ++ [Symlink sp active].
Proof.
  destruct (link_bootloaders_events st4) as (Hcalls3 & Hact3 & _).
  unfold linked, staged, storage_actions in *.
  rewrite ?List.filter_app, ?registrar_calls_app. simpl.
  rewrite ?List.filter_app, ?registrar_calls_app, ?Hact3, ?Hcalls3. simpl.
  by rewrite <- ?app_assoc.
Qed.

(** X15: when the repointing of the Current Pointer fails, after both
    control files have been written and the loaders linked,
    [import_images] raises that failure; the Registrar is not invoked
    and the Reaper is not called, so that the StorageRoot is as the
    linking of the loaders left it, the Current Pointer as before and
    the new snapshot directory in place. *)
Theorem import_images_repoint_failure e :
  outcome (write_snapshot_metadata env sp (dump_json d)) st2 = Ok tt →
  outcome (write_targets_conf env sp) st3 = Ok tt →
  outcome (update_current_symlink env storage sp) st5 = Raise e →
  let run := import_images env sources w in
  run.1 = Raise e
  ∧ store run.2 = st5
  ∧ ∃ evs,
      trace run.2 = trace w ++ evs
      ∧ registrar_calls evs = []
      ∧ storage_actions evs = staged ++ [Symlink sp active].
Proof.
  intros Hmeta Htgt Hsym run. unfold run.
  rewrite (import_images_download_returns env sources d w Hsources Hcatalog
             Hnonempty Hchanged sp st2 Hdownload).
  cbv zeta. fold storage active st3 st4 st5 st6.
  rewrite Hmeta, Htgt, Hsym. simpl.
  destruct (update_current_symlink_run env storage sp st5)
    as (Hev4 & _ & Hkeep).
  fold st6 active in Hev4, Hkeep.
  rewrite (write_snapshot_metadata_events (dump_json d) st2 Hmeta).
  rewrite (write_targets_conf_events st3), Hev4.
  destruct import_images_linked as (Hcalls & Hactions).
  split_and!; [done|by apply (Hkeep e)|].
  exists linked. split; [unfold linked; by norm_trace|].
  split; [exact Hcalls|exact Hactions].
Qed.

(** X16: when the Registrar, applied to the new Snapshot, raises,
    [import_images] raises the same, the new Snapshot being active
    already: the Current Pointer names it, the Registrar has been
    invoked once, against it, and the Reaper has not been called, so
    that the earlier snapshots and their Cache entries stay. *)
Theorem import_images_registrar_failure e :
  outcome (write_snapshot_metadata env sp (dump_json d)) st2 = Ok tt →
  outcome (write_targets_conf env sp) st3 = Ok tt →
  outcome (update_current_symlink env storage sp) st5 = Ok tt →
  outcome (update_targets_conf env sp) st6 = Raise e →
  let run := import_images env sources w in
  run.1 = Raise e
  ∧ store run.2 = st6
  ∧ current (store run.2) = Some sp
  ∧ dom (snapshots (store run.2)) = dom (snapshots st5)
  ∧ cache (store run.2) = cache st5
  ∧ ∃ evs,
      trace run.2 = trace w ++ evs
      ∧ registrar_calls evs = [sp]
      ∧ storage_actions evs = staged ++ [Symlink sp active].
Proof.
  intros Hmeta Htgt Hsym Hreg run. unfold run.
  rewrite (import_images_download_returns env sources d w Hsources Hcatalog
             Hnonempty Hchanged sp st2 Hdownload).
  cbv zeta. fold storage active st3 st4 st5 st6.
  rewrite Hmeta, Htgt, Hsym, Hreg. simpl.
  destruct (update_current_symlink_run env storage sp st5)
    as (Hev4 & Hcur & _).
  fold st6 active in Hev4, Hcur.
  rewrite (write_snapshot_metadata_events (dump_json d) st2 Hmeta).
  rewrite (write_targets_conf_events st3), Hev4.
  destruct (update_targets_conf_events env sp st6)
    as (evs & -> & Hcalls5 & Hact5).
  destruct import_images_linked as (Hcalls & Hactions).
  assert (dom (snapshots st6) = dom (snapshots st5)
          ∧ cache st6 = cache st5) as [Hdom Hcache].
  { destruct (update_current_symlink_returns env storage sp st5 Hsym)
      as [_ Hst6].
    fold st6 in Hst6. by rewrite Hst6. }
  split_and!; [done|done|by apply Hcur|done|done|].
  exists (linked ++ Log INFO (Text "Updating boot image iSCSI targets.")
                 :: UpdateTargets sp :: evs).
  split; [unfold linked; by norm_trace|].
  rewrite registrar_calls_app, storage_actions_app, Hcalls, Hactions.
  unfold storage_actions in *. simpl. rewrite Hcalls5, Hact5.
  by rewrite app_nil_r.
Qed.

Hypothesis Habsolute : isabs sp = true.
Context (name : string) (sub : list string).
Hypothesis Hstaging : components sp = root st2 ++ name :: sub.
Hypothesis Hname : name ≠ "current".
Hypothesis Hloaders :
  ∀ bm st, bm ∈ BootMethodRegistry env →
    keeps_record (path_join sp ["maas.meta"]) st (link_bootloader bm sp st).2.

(** What a run that returns [True] has gone through. *)
Lemma import_images_true_inv :
  (import_images env sources w).1 = Ok true →
  outcome (write_snapshot_metadata env sp (dump_json d)) st2 = Ok tt
  ∧ outcome (write_targets_conf env sp) st3 = Ok tt
  ∧ outcome (update_current_symlink env storage sp) st5 = Ok tt
  ∧ store (import_images env sources w).2
    = if decide (components storage = root st6) then reap st6 else st6.
Proof.
  rewrite (import_images_download_returns env sources d w Hsources Hcatalog
             Hnonempty Hchanged sp st2 Hdownload).
  cbv zeta. fold storage active st3 st4 st5 st6.
  destruct (outcome (write_snapshot_metadata env sp (dump_json d)) st2)
    as [[]|?]; simpl; [|intros [=]].
  destruct (outcome (write_targets_conf env sp) st3) as [[]|?]; simpl;
    [|intros [=]].
  destruct (outcome (update_current_symlink env storage sp) st5)
    as [[]|?]; simpl; [|intros [=]].
  destruct (outcome (update_targets_conf env sp) st6) as [[]|?]; simpl;
    [|intros [=]].
  done.
Qed.

(** The Metadata Record written in step 2 is what the file holds when
    the loaders have been linked. *)
Lemma import_images_record_staged :
  outcome (write_snapshot_metadata env sp (dump_json d)) st2 = Ok tt →
  outcome (write_targets_conf env sp) st3 = Ok tt →
  root st5 = root st2
  ∧ file_text st5 (path_join sp ["maas.meta"]) = Some (dump_json d).
Proof.
  intros Hmeta Htgt.
  destruct (write_snapshot_metadata_returns env sp (dump_json d) st2 Hmeta)
    as [_ Hput1]. fold st3 in Hput1.
  pose proof (write_targets_conf_returns env sp st3 Htgt) as Hput2.
  fold st4 in Hput2.
  destruct (put_file_frame _ _ _ _ _ Hput1) as (Hroot3 & _).
  destruct (put_file_frame _ _ _ _ _ Hput2) as (Hroot4 & _).
  assert (file_text st4 (path_join sp ["maas.meta"]) = Some (dump_json d))
    as Htext4.
  { unfold file_text.
    rewrite (stat_put_file _ _ _ _ _ (path_join sp ["maas.meta"]) Hput2).
    rewrite decide_False.
    - rewrite (stat_put_file _ _ _ _ _ (path_join sp ["maas.meta"]) Hput1).
      by rewrite decide_True.
    - rewrite (locate_below st3 (path_join sp ["maas.meta"]) name
                 (sub ++ ["maas.meta"])), 
              (locate_below st3 (path_join sp ["maas.tgt"]) name
                 (sub ++ ["maas.tgt"])); try done.
      + intros [= H%app_inv_head]. done.
      + rewrite components_control_file, Hstaging, Hroot3 by done.
        by rewrite <- app_assoc.
      + rewrite components_control_file, Hstaging, Hroot3 by done.
        by rewrite <- app_assoc. }
  destruct (link_bootloaders_keeps (path_join sp ["maas.meta"]) sp
              (BootMethodRegistry env) (fresh st4) Hloaders)
    as [Hroot5 Htext5].
  change (store (for_each (BootMethodRegistry env) (link_one sp)
                   (fresh st4)).2) with st5 in Hroot5, Htext5.
  simpl in Hroot5, Htext5.
  split; congruence.
Qed.

(** X17: a run that has returned [True] is recognised by the Change
    Detector: asked again with the same catalog, in the StorageRoot the
    run has left, [meta_contains] answers [True], so that the next run
    with an unchanged catalog downloads nothing.  The staging directory
    is taken to lie in the StorageRoot under an absolute path, and the
    loaders to leave the Metadata Record alone. *)
Theorem import_images_then_unchanged :
  (import_images env sources w).1 = Ok true →
  (meta_contains env storage (dump_json d)
     (import_images env sources w).2).1 = Ok true.
Proof.
  intros Htrue.
  destruct (import_images_true_inv Htrue) as (Hmeta & Htgt & Hsym & Hstore).
  destruct (import_images_record_staged Hmeta Htgt) as [Hroot5 Htext5].
  rewrite (parametric_meta_contains env storage (dump_json d)). simpl.
  destruct (meta_contains_run env storage (dump_json d)
              (store (import_images env sources w).2)) as (-> & _).
  f_equal. apply bool_decide_eq_true. rewrite Hstore.
  (* the repointing *)
  destruct (update_current_symlink_returns env storage sp st5 Hsym)
    as [Hstorage Hst6].
  fold st6 in Hst6.
  assert (root st6 = root st5 ∧ current st6 = Some sp
          ∧ snapshots st6 = snapshots st5) as (Hroot6 & Hcur6 & Hsnap6)
    by (by rewrite Hst6).
  assert (locate st6 (current_meta storage)
          = Some (name, sub ++ ["maas.meta"])) as Hlocate6.
  { rewrite locate_current_meta by congruence.
    rewrite Hcur6. simpl. unfold link_dest. rewrite Habsolute, Hstaging.
    rewrite Hroot6, Hroot5, drop_prefix_app. done. }
  assert (active_snapshot st6 = Some name) as Hactive.
  { unfold active_snapshot. rewrite Hcur6. simpl.
    unfold link_dest. rewrite Habsolute, Hstaging.
    by rewrite Hroot6, Hroot5, drop_prefix_app. }
  assert (file_text st6 (current_meta storage) = Some (dump_json d))
    as Htext6.
  { rewrite <- Htext5. unfold file_text, stat.
    rewrite Hlocate6, Hsnap6.
    rewrite (locate_below st5 (path_join sp ["maas.meta"]) name
               (sub ++ ["maas.meta"])); [done| |done].
    rewrite components_control_file, Hstaging, Hroot5 by done.
    by rewrite <- app_assoc. }
  destruct (decide _); [|done].
  unfold file_text. by rewrite (stat_reap _ _ _ _ Hlocate6 Hactive).
Qed.

End Commitment.

(** X11: in a run that finds the catalog unchanged the event sent to
    the region at the end, and the last log line, carry the opening
    message once more: that the import has finished is written to the
    log only.  When the Registrar raises, nothing follows its events. *)
Theorem import_images_unchanged_messages env sources d w :
  sources ≠ [] →
  download_all_image_descriptions env (prepared_sources env sources) = Ok d →
  is_empty d = false →
  (meta_contains env (tftp_root_parent env) (dump_json d) w).1 = Ok true →
  let active := path_join (tftp_root_parent env) ["current"] in
  let run := import_images env sources w in
  let opening := Text "Starting rack boot image import" in
  trace run.2 =
  trace w
  ++ [Log INFO opening; RackEvent RACK_IMPORT_INFO opening;
      FetchDescriptions;
      Log INFO (Text "Updating boot image iSCSI targets.")]
  ++ events (update_targets_conf env active) (store w)
  ++ match outcome (update_targets_conf env active) (store w) with
     | Ok _ =>
         [Log INFO (Text ("Finished importing boot images, the region does "
                          +:+ "not have any new images."));
          RackEvent RACK_IMPORT_INFO opening;
          Log INFO opening]
     | Raise _ => []
     end.
Proof.
  intros Hsources Hcatalog Hnonempty Hunchanged active run opening.
  rewrite (parametric_meta_contains env _ _ w) in Hunchanged.
  simpl in Hunchanged.
  destruct (meta_contains_run env (tftp_root_parent env) (dump_json d)
              (store w)) as (_ & Hstore & Hevents).
  unfold run, import_images. rewrite decide_False by (by destruct sources).
  run_steps. fold (prepared_sources env sources).
  rewrite Hcatalog. simpl. rewrite Hnonempty.
  rewrite (parametric_meta_contains env _ _ {| store := _ |}). simpl.
  rewrite Hunchanged, Hstore, Hevents. fold active.
  rewrite (parametric_update_iscsi_targets env _ {| store := _ |}). simpl.
  destruct (update_iscsi_targets_run env active
              (touch (store w) (current_meta (tftp_root_parent env))
                 (clock env)))
    as (-> & -> & ->).
  destruct (update_targets_conf_depends env active
              (touch (store w) (current_meta (tftp_root_parent env))
                 (clock env)) (store w)
              (path_exists_touch _ _ _ _)) as [-> ->].
  destruct (outcome (update_targets_conf env active) (store w)); simpl;
    norm_trace; rewrite ?app_nil_r; reflexivity.
Qed.

(** ** The command line *)

(** X18: [read_sources] touches nothing and logs nothing; the sources
    that [BootSources.load] returns it returns; an [IOError] whose
    [errno] is [ENOENT] it raises as [NoConfigFile]; and every other
    exception of the load, an [IOError] with another [errno] included,
    it raises as it is. *)
Theorem read_sources_errors load sources_yaml w :
  (read_sources load sources_yaml w).2 = w
  ∧ (∀ sources, load sources_yaml = Loaded sources →
       (read_sources load sources_yaml w).1 = Ok sources)
  ∧ (∀ msg, load sources_yaml = LoadRaises (OSError msg) (Some ENOENT) →
       (read_sources load sources_yaml w).1 = Raise (NoConfigFile msg))
  ∧ (∀ e errno, load sources_yaml = LoadRaises e errno →
       errno ≠ Some ENOENT ∨ (∀ msg, e ≠ OSError msg) →
       (read_sources load sources_yaml w).1 = Raise e)
  ∧ (∀ msg, (read_sources load sources_yaml w).1 = Raise (NoConfigFile msg) →
       load sources_yaml = LoadRaises (OSError msg) (Some ENOENT)
       ∨ ∃ errno, load sources_yaml = LoadRaises (NoConfigFile msg) errno).
Proof.
  unfold read_sources.
  destruct (load sources_yaml) as [sources|e errno] eqn:Hload.
  - split_and!; try done. by intros ? [= <-].
  - split_and!.
    + destruct e; try done. by destruct (decide _).
    + done.
    + intros msg [= -> ->]. by rewrite decide_True.
    + intros e' errno' [= <- <-] [Hno|Hno].
      * destruct e; try done. by rewrite decide_False.
      * destruct e; try done. by destruct (Hno msg).
    + intros msg. unfold NoConfigFile. destruct e; try done.
      * destruct (decide _) as [->|]; [|done].
        intros [= ->]. by left.
      * intros [= -> ->]. right. by eexists.
Qed.

(** X19: [main] starts the import with the sources read, and only then:
    when the configuration file cannot be read the import is not begun
    (nothing is logged, fetched or written) and the exception of
    [read_sources] is raised; otherwise the StorageRoot and the trace
    are those of [import_images], what it raises is raised, and its
    answer is dropped, [main] returning [None] whether the import
    returned [True] or [False]. *)
Theorem main_outcome env load sources_file w :
  (∀ e, (read_sources load sources_file w).1 = Raise e →
     main env load sources_file w = (Raise e, w))
  ∧ (∀ sources, load sources_file = Loaded sources →
       (main env load sources_file w).2 = (import_images env sources w).2
       ∧ (∀ b, (import_images env sources w).1 = Ok b →
            (main env load sources_file w).1 = Ok tt)
       ∧ (∀ e, (import_images env sources w).1 = Raise e →
            (main env load sources_file w).1 = Raise e)).
Proof.
  unfold main, read_sources.
  destruct (load sources_file) as [sources|e errno].
  - split; [done|]. intros ? [= <-]. run_steps.
    destruct (import_images env sources w) as [[b|e] w']; simpl.
    + by split_and!.
    + split_and!; try done. by intros ? [= <-].
  - split; [|done]. intros e'. destruct e; run_steps;
      try (by intros [= <-]).
    destruct (decide _); run_steps; by intros [= <-].
Qed.

(** ** More on the Target Descriptor *)

Lemma size_collect_entries_from (acc : gset Key) (items : list BootImage) :
  size (foldl (λ entries item, entries ∪ {[ image_key item ]}) acc items)
  ≤ size acc + length items.
Proof.
  revert acc. induction items as [|item items IH]; intros acc; simpl; [lia|].
  etrans; [apply IH|].
  rewrite size_union_alt.
  assert (size ({[image_key item]} ∖ acc : gset Key) ≤ 1); [|lia].
  rewrite <- (size_singleton (image_key item) (C := gset Key)).
  apply subseteq_size. by intros x [? _]%elem_of_difference.
Qed.

Lemma sum_list_with_bound {A} (f : A → nat) (n : nat) (l : list A) :
  (∀ x, f x ≤ n) → sum_list_with f l ≤ n * length l.
Proof.
  intros Hf. induction l as [|x l IH]; simpl; [lia|].
  specialize (Hf x). lia.
Qed.

Lemma sum_list_with_zero {A} (f : A → nat) (l : list A) :
  sum_list_with f l = 0 ↔ ∀ x, x ∈ l → f x = 0.
Proof.
  induction l as [|x l IH]; simpl.
  - split; [|done]. intros _ x Hx. by apply elem_of_nil in Hx.
  - split.
    + intros Hsum y [->|Hy]%elem_of_cons; [lia|]. apply IH; [lia|done].
    + intros Hall. rewrite (Hall x) by (by left). simpl.
      apply IH. intros y Hy. apply Hall. by right.
Qed.

Lemma backing_files_le_2 st sp k : backing_files st sp k ≤ 2.
Proof.
  destruct k as [[[[o a] s] r] l]. unfold backing_files.
  do 2 destruct (isfile _ _); lia.
Qed.

Lemma str_join_empty (l : list string) :
  (∀ e, e ∈ l → e ≠ "") → str_join l = "" ↔ l = [].
Proof.
  intros Hne. split; [|by intros ->].
  destruct l as [|e l]; [done|]. simpl. intros Happ.
  destruct (Hne e) ; [by left|].
  destruct e; [done|]. by rewrite append_cons in Happ.
Qed.

(** X1: the Target Descriptor has at most two entries for each
    distinct tuple among the boot images, so at most twice as many as
    there are images; and it is the empty text exactly when no image
    has a [root-image] or a [squashfs] file below the directory of its
    tuple. *)
Theorem target_descriptor_size env snapshot_path w :
  let st := store w in
  let items := list_boot_images env snapshot_path st in
  let tgt_entries := tgt_entries_of st snapshot_path items in
  length tgt_entries ≤ 2 * size (collect_entries items)
  ∧ size (collect_entries items) ≤ length items
  ∧ ((compose_targets_conf env snapshot_path w).1 = Ok "" ↔
     ∀ item, item ∈ items →
       backing_files st snapshot_path (image_key item) = 0).
Proof.
  intros st items tgt_entries. split_and!.
  - unfold tgt_entries. rewrite length_tgt_entries_of.
    etrans; [apply (sum_list_with_bound _ 2), backing_files_le_2|].
    done.
  - etrans; [apply size_collect_entries_from|]. rewrite size_empty. lia.
  - rewrite compose_targets_conf_run. simpl. fold st items tgt_entries.
    assert (tgt_entries = [] ↔
            ∀ item, item ∈ items →
              backing_files st snapshot_path (image_key item) = 0) as <-.
    { rewrite <- length_zero_iff_nil. unfold tgt_entries.
      rewrite length_tgt_entries_of, sum_list_with_zero. split.
      - intros Hall item Hitem. apply Hall.
        apply elem_of_elements, elem_of_collect_entries.
        apply list_elem_of_fmap. by exists item.
      - intros Hall k Hk.
        apply elem_of_elements, elem_of_collect_entries in Hk.
        apply list_elem_of_fmap in Hk as (item & -> & Hitem).
        by apply Hall. }
    rewrite <- str_join_empty.
    + split; [by intros [= ->]|by intros ->].
    + intros e He. apply elem_of_tgt_entries_of in He
        as (o & a & s & r & l & kind & _ & _ & _ & ->).
      rewrite tgt_entry_shape. done.
Qed.

(** ** Examples *)

Lemma update_targets_conf_wait_failure_witness :
  let run := update_targets_conf Faults.env_tgt_down "/srv/boot/snapshot-1"
               (Scenario.world Scenario.settled) in
  path_exists Scenario.settled "/srv/boot/snapshot-1/maas.tgt" = true
  ∧ run.1 = Raise Faults.tgt_down
  ∧ trace run.2 = [UpdateTargets "/srv/boot/snapshot-1";
                   EnsureService "tgt" 30].
Proof.
  intros run. split; [vm_compute; reflexivity|].
  unfold run.
  rewrite (update_targets_conf_wait_failure Faults.env_tgt_down
             "/srv/boot/snapshot-1" Faults.tgt_down
             (Scenario.world Scenario.settled) eq_refl).
  split; reflexivity.
Defined.

Lemma update_targets_conf_foreign_exception_witness :
  let run := update_targets_conf Faults.env_reload_crash
               "/srv/boot/snapshot-1" (Scenario.world Scenario.settled) in
  run.1 = Raise (OSError "sudo: command not found")
  ∧ Forall (λ ev, ∀ t m, ev ≠ RackEvent t m) (trace run.2).
Proof.
  intros run. unfold run.
  rewrite (update_targets_conf_foreign_exception Faults.env_reload_crash
             "/srv/boot/snapshot-1" (OSError "sudo: command not found")
             (Scenario.world Scenario.settled) eq_refl);
    [|vm_compute; reflexivity|reflexivity|reflexivity].
  split; [reflexivity|]. repeat constructor; done.
Defined.

Lemma write_targets_conf_then_update_witness :
  let env := Scenario.make_env "{A}" Scenario.download_ok [Scenario.xenial]
               (Ok tt) Scenario.no_fault in
  let written := (write_targets_conf env "/srv/boot/snapshot-1"
                    (Scenario.world Scenario.settled)).2 in
  file_text (store written) "/srv/boot/snapshot-1/maas.tgt"
    = Some (tgt_entry "ubuntu" "amd64" "generic" "xenial" "release"
              "/srv/boot/snapshot-1/ubuntu/amd64/generic/xenial/release/root-image")
  ∧ RunCommand ["sudo"; "-n"; "/usr/sbin/tgt-admin"; "--conf";
                "/srv/boot/snapshot-1/maas.tgt"; "--update"; "ALL"]
    ∈ trace (update_targets_conf env "/srv/boot/snapshot-1" written).2.
Proof.
  intros env written.
  destruct (write_targets_conf_then_update env "/srv/boot/snapshot-1"
              (Scenario.world Scenario.settled)) as [Htext Hrun].
  - vm_compute. reflexivity.
  - reflexivity.
  - split; [|exact Hrun]. etrans; [exact Htext|].
    vm_compute. reflexivity.
Defined.

Lemma write_snapshot_metadata_not_ascii_witness :
  is_ascii Faults.not_ascii = false
  ∧ write_snapshot_metadata Scenario.env_download_fails
      "/srv/boot/snapshot-1" Faults.not_ascii
      (Scenario.world Scenario.settled)
    = (Raise (OtherException "UnicodeEncodeError" Faults.not_ascii),
       Scenario.world Scenario.settled).
Proof.
  split; [reflexivity|].
  apply (write_snapshot_metadata_not_ascii Scenario.env_download_fails
           "/srv/boot/snapshot-1" Faults.not_ascii
           (Scenario.world Scenario.settled)).
  reflexivity.
Defined.

Lemma write_snapshot_metadata_round_trip_witness :
  let run := write_snapshot_metadata Scenario.env_download_fails
               "/srv/boot/snapshot-1" "{B}"
               (Scenario.world Scenario.settled) in
  file_text Scenario.settled "/srv/boot/snapshot-1/maas.meta" = Some "{A}"
  ∧ file_text (store run.2) "/srv/boot/snapshot-1/maas.meta" = Some "{B}"
  ∧ file_text (store run.2) "/srv/boot/snapshot-1/maas.tgt" = Some "targets".
Proof.
  intros run. split; [vm_compute; reflexivity|].
  destruct (write_snapshot_metadata_round_trip Scenario.env_download_fails
              "/srv/boot/snapshot-1" "{B}" (Scenario.world Scenario.settled))
    as (_ & Htext & _ & _ & Hother).
  - vm_compute. reflexivity.
  - split; [exact Htext|].
    unfold file_text. fold run in Hother. rewrite Hother.
    + vm_compute. reflexivity.
    + vm_compute. discriminate.
Defined.

Lemma import_images_catalog_failure_witness :
  import_images Faults.env_no_region Scenario.one_source
    (Scenario.world Scenario.settled)
  = (Raise (OSError "connection refused"),
     {| store := Scenario.settled;
        trace := [Log INFO (Text "Starting rack boot image import");
                  RackEvent RACK_IMPORT_INFO
                    (Text "Starting rack boot image import");
                  FetchDescriptions] |}).
Proof.
  apply (import_images_catalog_failure Faults.env_no_region
           Scenario.one_source (OSError "connection refused")
           (Scenario.world Scenario.settled)).
  - done.
  - reflexivity.
Defined.

Lemma import_images_empty_catalog_witness :
  let run := import_images Faults.env_empty_catalog Scenario.one_source
               (Scenario.world Scenario.settled) in
  store run.2 = Scenario.settled ∧ run.1 = Ok false.
Proof.
  intros run.
  destruct (import_images_empty_catalog Faults.env_empty_catalog
              Scenario.one_source {| is_empty := true; dump_json := "{}" |}
              (Scenario.world Scenario.settled))
    as (Hstore & evs & _ & _ & Hresult).
  - done.
  - reflexivity.
  - reflexivity.
  - split; [exact Hstore|].
    assert (outcome (update_targets_conf Faults.env_empty_catalog
                       (path_join (tftp_root_parent Faults.env_empty_catalog)
                          ["current"]))
              (store (Scenario.world Scenario.settled)) = Ok tt) as Hreturns
      by (vm_compute; reflexivity).
    rewrite Hreturns in Hresult. apply Hresult.
Defined.

Lemma import_images_failure_report_fails_witness :
  let run := import_images Faults.env_report_fails Scenario.one_source
               (Scenario.world Scenario.settled) in
  run.1 = Raise Faults.tgt_down
  ∧ "snapshot-2" ∈ dom (snapshots (store run.2)).
Proof.
  intros run.
  destruct (import_images_failure_report_fails Faults.env_report_fails
              Scenario.one_source Scenario.catalog_B
              (Scenario.world Scenario.settled)
              (OSError "connection reset") Faults.tgt_down
              (Scenario.add_snapshot "snapshot-2" Scenario.snapshot_partial
                 (touch Scenario.settled (current_meta "/srv/boot") 200)))
    as (Hraise & Hstore & _).
  - done.
  - reflexivity.
  - reflexivity.
  - vm_compute. reflexivity.
  - reflexivity.
  - reflexivity.
  - vm_compute. reflexivity.
  - split; [exact Hraise|]. fold run in Hstore. rewrite Hstore.
    apply elem_of_dom. eexists. apply lookup_insert_eq.
Defined.

Lemma import_images_download_interrupt_witness :
  let run := import_images Faults.env_interrupted Scenario.one_source
               (Scenario.world Scenario.settled) in
  run.1 = Raise KeyboardInterrupt
  ∧ registrar_calls (trace run.2) = []
  ∧ "snapshot-2" ∈ dom (snapshots (store run.2)).
Proof.
  intros run.
  destruct (import_images_download_interrupt Faults.env_interrupted
              Scenario.one_source Scenario.catalog_B
              (Scenario.world Scenario.settled) KeyboardInterrupt
              (Scenario.add_snapshot "snapshot-2" Scenario.snapshot_partial
                 (touch Scenario.settled (current_meta "/srv/boot") 200)))
    as (Hraise & Hstore & evs & Htrace & Hcalls & _).
  - done.
  - reflexivity.
  - reflexivity.
  - vm_compute. reflexivity.
  - reflexivity.
  - reflexivity.
  - fold run in Hraise, Hstore, Htrace. split_and!.
    + exact Hraise.
    + rewrite Htrace. exact Hcalls.
    + rewrite Hstore. apply elem_of_dom. eexists. apply lookup_insert_eq.
Defined.

Lemma import_images_commit_order_witness :
  let run := import_images Faults.env_two_loaders Scenario.one_source
               (Scenario.world Scenario.settled) in
  run.1 = Ok true
  ∧ current (store run.2) = Some "/srv/boot/snapshot-2"
  ∧ storage_actions (trace run.2)
    = [Download "/srv/boot";
       WriteFile "/srv/boot/snapshot-2/maas.meta";
       WriteFile "/srv/boot/snapshot-2/maas.tgt";
       LinkBootloader "uefi" "/srv/boot/snapshot-2";
       LinkBootloader "pxe" "/srv/boot/snapshot-2";
       Symlink "/srv/boot/snapshot-2" "/srv/boot/current";
       Cleanup "/srv/boot"].
Proof.
  intros run.
  destruct (import_images_commit_order Faults.env_two_loaders
              Scenario.one_source Scenario.catalog_B
              (Scenario.world Scenario.settled) "/srv/boot/snapshot-2"
              (Scenario.add_snapshot "snapshot-2" Scenario.snapshot_partial
                 (touch Scenario.settled (current_meta "/srv/boot") 200)))
    as (Hiff & Hshape).
  - done.
  - reflexivity.
  - reflexivity.
  - vm_compute. reflexivity.
  - reflexivity.
  - fold run in Hiff, Hshape.
    assert (run.1 = Ok true) as Htrue.
    { apply Hiff. split_and!; vm_compute; reflexivity. }
    destruct (Hshape Htrue)
      as (Hcur & before & between & after & Htrace & Hbefore & _ & Hbetween
          & _ & Hafter & _).
    split_and!; [done..|].
    rewrite Htrace. simpl.
    rewrite !storage_actions_app. simpl.
    change (storage_actions (Symlink "/srv/boot/snapshot-2"
                               (path_join "/srv/boot" ["current"])
                             :: between ++ UpdateTargets "/srv/boot/snapshot-2"
                             :: after))
      with (Symlink "/srv/boot/snapshot-2" (path_join "/srv/boot" ["current"])
            :: storage_actions (between ++ UpdateTargets "/srv/boot/snapshot-2"
                                :: after)).
    rewrite storage_actions_app.
    change (storage_actions (UpdateTargets "/srv/boot/snapshot-2" :: after))
      with (storage_actions after).
    rewrite Hbefore, Hbetween, Hafter. reflexivity.
Defined.

Lemma import_images_repoint_failure_witness :
  let run := import_images Faults.env_link_fault Scenario.one_source
               (Scenario.world Scenario.settled) in
  run.1 = Raise (OSError "Read-only file system")
  ∧ current (store run.2) = Some "/srv/boot/snapshot-1"
  ∧ registrar_calls (trace run.2) = [].
Proof.
  intros run.
  destruct (import_images_repoint_failure Faults.env_link_fault
              Scenario.one_source Scenario.catalog_B
              (Scenario.world Scenario.settled) "/srv/boot/snapshot-2"
              (Scenario.add_snapshot "snapshot-2" Scenario.snapshot_partial
                 (touch Scenario.settled (current_meta "/srv/boot") 200)))
    with (e := OSError "Read-only file system")
    as (Hraise & Hstore & evs & Htrace & Hcalls & _).
  - done.
  - reflexivity.
  - reflexivity.
  - vm_compute. reflexivity.
  - reflexivity.
  - vm_compute. reflexivity.
  - vm_compute. reflexivity.
  - vm_compute. reflexivity.
  - fold run in Hraise, Hstore, Htrace. split_and!.
    + exact Hraise.
    + rewrite Hstore. vm_compute. reflexivity.
    + rewrite Htrace. exact Hcalls.
Defined.

Lemma import_images_registrar_failure_witness :
  let run := import_images Faults.env_reload_crash Scenario.one_source
               (Scenario.world Scenario.settled) in
  run.1 = Raise (OSError "sudo: command not found")
  ∧ current (store run.2) = Some "/srv/boot/snapshot-2"
  ∧ dom (snapshots (store run.2)) = {[ "snapshot-1"; "snapshot-2" ]}.
Proof.
  intros run.
  destruct (import_images_registrar_failure Faults.env_reload_crash
              Scenario.one_source Scenario.catalog_B
              (Scenario.world Scenario.settled) "/srv/boot/snapshot-2"
              (Scenario.add_snapshot "snapshot-2" Scenario.snapshot_partial
                 (touch Scenario.settled (current_meta "/srv/boot") 200)))
    with (e := OSError "sudo: command not found")
    as (Hraise & _ & Hcur & Hdom & _).
  - done.
  - reflexivity.
  - reflexivity.
  - vm_compute. reflexivity.
  - reflexivity.
  - vm_compute. reflexivity.
  - vm_compute. reflexivity.
  - vm_compute. reflexivity.
  - vm_compute. reflexivity.
  - fold run in Hraise, Hcur, Hdom. split_and!; [done..|].
    rewrite Hdom. vm_compute. reflexivity.
Defined.

Lemma import_images_unchanged_messages_witness :
  let env := Scenario.make_env "{A}" Scenario.download_ok [Scenario.xenial]
               (Ok tt) Scenario.no_fault in
  let run := import_images env Scenario.one_source
               (Scenario.world Scenario.settled) in
  last (trace run.2)
    = Some (Log INFO (Text "Starting rack boot image import"))
  ∧ RackEvent RACK_IMPORT_INFO (Text "Finished importing boot images.")
    ∉ trace run.2.
Proof.
  intros env run.
  pose proof (import_images_unchanged_messages env Scenario.one_source
                {| is_empty := false; dump_json := "{A}" |}
                (Scenario.world Scenario.settled)) as Htrace.
  fold run in Htrace. rewrite Htrace.
  - split; [vm_compute; reflexivity|].
    apply (bool_decide_unpack _). vm_compute. exact I.
  - done.
  - reflexivity.
  - reflexivity.
  - vm_compute. reflexivity.
Defined.

Lemma import_images_then_unchanged_witness :
  let run := import_images Faults.env_two_loaders Scenario.one_source
               (Scenario.world Scenario.settled) in
  (meta_contains Faults.env_two_loaders "/srv/boot" "{B}"
     (Scenario.world Scenario.settled)).1 = Ok false
  ∧ (meta_contains Faults.env_two_loaders "/srv/boot" "{B}" run.2).1
    = Ok true.
Proof.
  intros run. split; [vm_compute; reflexivity|].
  apply (import_images_then_unchanged Faults.env_two_loaders
           Scenario.one_source Scenario.catalog_B
           (Scenario.world Scenario.settled) "/srv/boot/snapshot-2"
           (Scenario.add_snapshot "snapshot-2" Scenario.snapshot_partial
              (touch Scenario.settled (current_meta "/srv/boot") 200)))
    with (name := "snapshot-2") (sub := []).
  - done.
  - reflexivity.
  - reflexivity.
  - vm_compute. reflexivity.
  - reflexivity.
  - reflexivity.
  - vm_compute. reflexivity.
  - done.
  - intros bm st Hbm. unfold keeps_record.
    apply elem_of_cons in Hbm as [->|Hbm]; [done|].
    apply list_elem_of_singleton in Hbm as ->. done.
  - vm_compute. reflexivity.
Defined.
